(** * Meltano plugin model: a shallow embedding of
      [meltano/core/plugin/base.py] and [meltano/core/select_service.py].

    Python values are modelled by the type [val]; Python dictionaries are
    insertion-ordered, and that order is observable (keyword binding,
    serialization, the order of synthesized settings), so a dictionary is an
    association list whose first binding of a key is the live one.
    A call that may raise returns [result]: [Ok v] or [Err e]. *)

From Stdlib Require Import String Ascii List ZArith Bool Lia FinFun.
Import ListNotations.
Open Scope string_scope.
Open Scope list_scope.

Infix "+++" := String.append (at level 60, right associativity).

(** ** Results of calls that may raise *)

Inductive result (E A : Type) : Type :=
| Ok (a : A)
| Err (e : E).
Arguments Ok {E A} a.
Arguments Err {E A} e.

Definition bind {E A B} (r : result E A) (k : A -> result E B) : result E B :=
  match r with
  | Ok a => k a
  | Err e => Err e
  end.

Notation "x <- c ;; k" := (bind c (fun x => k))
  (at level 61, c at next level, right associativity).

(** Inverts a hypothesis [H : (x <- r ;; k) = Ok b]: [r] returned. *)
Ltac bind_ok H :=
  match type of H with
  | bind ?r _ = Ok _ =>
      let E := fresh "E" in
      destruct r eqn:E; simpl in H; [|discriminate H]
  end.

Fixpoint mapM {E A B} (f : A -> result E B) (l : list A) : result E (list B) :=
  match l with
  | [] => Ok []
  | x :: xs => y <- f x ;; ys <- mapM f xs ;; Ok (y :: ys)
  end.

(** The built-in exceptions the modelled code can raise.  [IllTyped] is not
    a Python exception: the model is typed by the annotations of the source
    ([name: str], [original: Optional[bool]], ...), and a run that would
    store a value of another type in such an attribute leaves the model. *)
Inductive exn : Type :=
| TypeError
| ValueError
| IndexError
| AttributeError
| IllTyped.

(** ** Python strings *)

Module Str.

(** [s.endswith(suffix)] *)
Definition endswith (s suffix : string) : bool :=
  let n := String.length s in
  let m := String.length suffix in
  Nat.leb m n && String.eqb (substring (n - m) m s) suffix.

(** [s[:-n]] for [n > 0]: the string without its last [n] characters *)
Definition drop_last (n : nat) (s : string) : string :=
  substring 0 (String.length s - n) s.

Definition upper (c : ascii) : ascii :=
  let n := nat_of_ascii c in
  if Nat.leb 97 n && Nat.leb n 122 then ascii_of_nat (n - 32) else c.

Definition lower (c : ascii) : ascii :=
  let n := nat_of_ascii c in
  if Nat.leb 65 n && Nat.leb n 90 then ascii_of_nat (n + 32) else c.

Fixpoint map (f : ascii -> ascii) (s : string) : string :=
  match s with
  | EmptyString => EmptyString
  | String c s' => String (f c) (map f s')
  end.

(** [s.capitalize()] on ASCII text: first character upper-cased, the
    others lower-cased. *)
Definition capitalize (s : string) : string :=
  match s with
  | EmptyString => EmptyString
  | String c s' => String (upper c) (map lower s')
  end.

(** [sep.join(parts)] *)
Fixpoint join (sep : string) (parts : list string) : string :=
  match parts with
  | [] => ""
  | [p] => p
  | p :: rest => p +++ sep +++ join sep rest
  end.

(** [sub in s] *)
Fixpoint contains (sub s : string) : bool :=
  String.prefix sub s ||
  match s with
  | EmptyString => false
  | String _ s' => contains sub s'
  end.

(** [list(s)]: the one-character strings of [s] *)
Fixpoint chars (s : string) : list string :=
  match s with
  | EmptyString => []
  | String c s' => String c EmptyString :: chars s'
  end.

End Str.

(** ** PluginType *)

Module PluginType.

Inductive t : Type :=
| EXTRACTORS
| LOADERS
| TRANSFORMS
| MODELS
| DASHBOARDS
| ORCHESTRATORS
| TRANSFORMERS
| FILES.

(** The members in definition order (iteration over the enum). *)
Definition members : list t :=
  [EXTRACTORS; LOADERS; TRANSFORMS; MODELS; DASHBOARDS; ORCHESTRATORS;
   TRANSFORMERS; FILES].

Definition value (x : t) : string :=
  match x with
  | EXTRACTORS => "extractors"
  | LOADERS => "loaders"
  | TRANSFORMS => "transforms"
  | MODELS => "models"
  | DASHBOARDS => "dashboards"
  | ORCHESTRATORS => "orchestrators"
  | TRANSFORMERS => "transformers"
  | FILES => "files"
  end.

Definition eqb (x y : t) : bool := String.eqb (value x) (value y).

(** [self.value[:-1]] *)
Definition singular (x : t) : string := Str.drop_last 1 (value x).

Definition verb (x : t) : string :=
  match x with
  | TRANSFORMS => singular x
  | _ => Str.drop_last 3 (value x)
  end.

Definition descriptor (x : t) : string :=
  match x with
  | FILES => "file bundle"
  | _ => singular x
  end.

(** [cls._value2member_map_.get(value)] *)
Definition lookup (v : string) : option t :=
  find (fun x => String.eqb (value x) v) members.

Definition value_exists (v : string) : bool :=
  match lookup v with Some _ => true | None => false end.

Definition cli_arguments : list string :=
  List.map singular members ++ List.map value members.

(** [cls(value)]: the member with that value, [ValueError] otherwise. *)
Definition of_value (v : string) : result exn t :=
  match lookup v with
  | Some x => Ok x
  | None => Err ValueError
  end.

(** The value [from_cli_argument] resolves: its argument, with an "s"
    appended unless it ends with one. *)
Definition normalize (v : string) : string :=
  if negb (Str.endswith v "s") then v +++ "s" else v.

Definition from_cli_argument (v : string) : result exn t :=
  of_value (normalize v).

End PluginType.

(** ** PluginRef *)

Module PluginRef.

(** The [plugin_type] argument of [__init__]: a member of [PluginType], or
    a plain string. *)
Inductive type_arg : Type :=
| Member (t : PluginType.t)
| Text (s : string).

(** The first statement of [__init__]: a member is stored as it is, a
    string is handed to the enum. *)
Definition _type (plugin_type : type_arg) : result exn PluginType.t :=
  match plugin_type with
  | Member t => Ok t
  | Text s => PluginType.of_value s
  end.

End PluginRef.

(** ** Python values and dictionaries *)

(** Plain data, as a manifest (YAML) holds it. *)
#[local] Set Warnings "-register-all".
Inductive val : Type :=
| VNone
| VBool (b : bool)
| VInt (n : Z)
| VStr (s : string)
| VList (xs : list val)
| VDict (kvs : list (string * val)).

(** [x == s] for a string [s]: only an equal string is equal to it. *)
Definition val_eq_str (x : val) (s : string) : bool :=
  match x with
  | VStr s' => String.eqb s' s
  | _ => false
  end.

(** [x is None] *)
Definition is_none (x : val) : bool :=
  match x with
  | VNone => true
  | _ => false
  end.

Definition of_opt_str (o : option string) : val :=
  match o with
  | Some s => VStr s
  | None => VNone
  end.

Definition of_opt_bool (o : option bool) : val :=
  match o with
  | Some b => VBool b
  | None => VNone
  end.

(** Iterating a value, as [list(x)] and [map(f, x)] do: a list gives its
    elements, a string its characters, a dict its keys; nothing else is
    iterable. *)
Definition py_iter (x : val) : result exn (list val) :=
  match x with
  | VList xs => Ok xs
  | VStr s => Ok (List.map VStr (Str.chars s))
  | VDict kvs => Ok (List.map (fun kv => VStr (fst kv)) kvs)
  | VNone | VBool _ | VInt _ => Err TypeError
  end.

Module Dict.
Section WithValues.

Context {A : Type}.

Definition keys (d : list (string * A)) : list string := List.map fst d.

(** A list of bindings is a dictionary when no key is bound twice. *)
Definition wf (d : list (string * A)) : Prop := NoDup (keys d).

(** [d.get(k)] *)
Fixpoint get (k : string) (d : list (string * A)) : option A :=
  match d with
  | [] => None
  | (k', v) :: d' => if String.eqb k' k then Some v else get k d'
  end.

(** [k in d] *)
Definition mem (k : string) (d : list (string * A)) : bool :=
  match get k d with
  | Some _ => true
  | None => false
  end.

(** [d.get(k, default)] *)
Definition get_default (k : string) (default : A) (d : list (string * A)) : A :=
  match get k d with
  | Some v => v
  | None => default
  end.

(** [d[k] = v]: a key already bound keeps its place, a new one goes last. *)
Fixpoint set (k : string) (v : A) (d : list (string * A)) : list (string * A) :=
  match d with
  | [] => [(k, v)]
  | (k', v') :: d' =>
      if String.eqb k' k then (k', v) :: d' else (k', v') :: set k v d'
  end.

(** [del d[k]], doing nothing when [k] is not bound. *)
Fixpoint remove (k : string) (d : list (string * A)) : list (string * A) :=
  match d with
  | [] => []
  | (k', v') :: d' =>
      if String.eqb k' k then d' else (k', v') :: remove k d'
  end.

(** [d.update(items)]: the bindings of [items] are stored in their order. *)
Definition update (d items : list (string * A)) : list (string * A) :=
  fold_left (fun acc kv => set (fst kv) (snd kv) acc) items d.

(** [dict(items)] *)
Definition of_items (items : list (string * A)) : list (string * A) :=
  update [] items.

(** [{**d1, **d2}] *)
Definition merge (d1 d2 : list (string * A)) : list (string * A) :=
  update (of_items d1) d2.

(** The bindings whose key satisfies [p], in order. *)
Definition filter_keys (p : string -> bool) (d : list (string * A))
  : list (string * A) :=
  filter (fun kv => p (fst kv)) d.

End WithValues.
End Dict.

Definition dict : Type := list (string * val).

(** [k in names] *)
Definition among (names : list string) (k : string) : bool :=
  existsb (String.eqb k) names.

(** ** SelectService.update *)

Module SelectService.

(** A call of the project's plugin service, with the extras the plugin
    object held when it was handed over. *)
Inductive call : Type :=
| update_plugin (extras : dict)
| update_environment_plugin (extras : dict).

(** What [update] reads and writes: whether an environment is active
    ([self.project.environment is not None]), the extras of the extractor
    plugin, the extras of the plugin configuration the environment returns
    from [get_plugin_config], and the calls made to the plugin service. *)
Record state : Type := {
  environment : bool;
  extractor_extras : dict;
  environment_extras : dict;
  calls : list call
}.

(** The object bound to the local [plugin]. *)
Inductive target : Type :=
| Extractor
| EnvironmentPluginConfig.

Definition plugin_extras (tg : target) (st : state) : dict :=
  match tg with
  | Extractor => extractor_extras st
  | EnvironmentPluginConfig => environment_extras st
  end.

Definition with_plugin_extras (tg : target) (e : dict) (st : state) : state :=
  match tg with
  | Extractor =>
      {| environment := environment st; extractor_extras := e;
         environment_extras := environment_extras st; calls := calls st |}
  | EnvironmentPluginConfig =>
      {| environment := environment st;
         extractor_extras := extractor_extras st;
         environment_extras := e; calls := calls st |}
  end.

Definition record_call (c : call) (st : state) : state :=
  {| environment := environment st;
     extractor_extras := extractor_extras st;
     environment_extras := environment_extras st;
     calls := calls st ++ [c] |}.

(** A step either returns a value or raises, and leaves a state behind in
    both cases. *)
Definition M (A : Type) : Type := state -> result exn A * state.

Definition ret {A} (a : A) : M A := fun st => (Ok a, st).
Definition raise {A} (e : exn) : M A := fun st => (Err e, st).
Definition and_then {A B} (m : M A) (k : A -> M B) : M B :=
  fun st =>
    match m st with
    | (Ok a, st') => k a st'
    | (Err e, st') => (Err e, st')
    end.
Definition read {A} (f : state -> A) : M A := fun st => (Ok (f st), st).
Definition write (f : state -> state) : M unit := fun st => (Ok tt, f st).

Notation "x <~ m ;;; k" := (and_then m (fun x => k))
  (at level 61, m at next level, right associativity).
Notation "m ;;; k" := (and_then m (fun _ => k))
  (at level 61, right associativity).

Definition _get_pattern_string (entities_filter attributes_filter : string)
    (exclude : bool) : string :=
  let exclude := if exclude then "!" else "" in
  exclude +++ entities_filter +++ "." +++ attributes_filter.

(** [patterns.remove(p)]: drops the first element equal to [p]; [None]
    stands for the [ValueError] raised when there is none. *)
Fixpoint list_remove (p : string) (l : list val) : option (list val) :=
  match l with
  | [] => None
  | x :: l' =>
      if val_eq_str x p then Some l'
      else option_map (cons x) (list_remove p l')
  end.

(** [patterns.remove(p)] and [patterns.append(p)] on whatever [patterns]
    is: only a list has these methods. *)
Definition mutate (remove : bool) (p : string) (patterns : val)
  : result exn val :=
  match patterns with
  | VList l =>
      if remove then
        match list_remove p l with
        | Some l' => Ok (VList l')
        | None => Err ValueError
        end
      else Ok (VList (l ++ [VStr p]))
  | _ => Err AttributeError
  end.

Definition update (entities_filter attributes_filter : string)
    (exclude remove : bool) : M unit :=
  env <~ read environment ;;;
  let plugin := if env then EnvironmentPluginConfig else Extractor in
  let this_pattern :=
    _get_pattern_string entities_filter attributes_filter exclude in
  extras <~ read (plugin_extras plugin) ;;;
  (* patterns = plugin.extras.get("select", []): the stored list itself
     when there is one, a fresh list otherwise *)
  let stored := Dict.get "select" extras in
  let patterns := match stored with Some v => v | None => VList [] end in
  match mutate remove this_pattern patterns with
  | Err e => raise e
  | Ok patterns' =>
      (* remove and append work in place: a stored list has changed
         already, before the assignment below *)
      (match stored with
       | Some _ =>
           write (with_plugin_extras plugin
                    (Dict.set "select" patterns' extras))
       | None => ret tt
       end) ;;;
      (* plugin.extras["select"] = patterns *)
      extras <~ read (plugin_extras plugin) ;;;
      write (with_plugin_extras plugin
               (Dict.set "select" patterns' extras)) ;;;
      env <~ read environment ;;;
      extras <~ read (plugin_extras plugin) ;;;
      if env then write (record_call (update_environment_plugin extras))
      else write (record_call (update_plugin extras))
  end.

(** The object [update] works on, the patterns it finds there, and the
    state a successful run leaves: the new extras stored in that object and
    handed to the plugin service. *)
Definition active (st : state) : target :=
  if environment st then EnvironmentPluginConfig else Extractor.

Definition select (st : state) : option val :=
  Dict.get "select" (plugin_extras (active st) st).

(** [l] is the list of patterns [update] starts from: the stored list, or
    the empty list when [select] is not bound. *)
Definition patterns_are (st : state) (l : list val) : Prop :=
  select st = Some (VList l) \/ (select st = None /\ l = []).

Definition committed (extras : dict) (st : state) : state :=
  record_call
    (if environment st then update_environment_plugin extras
     else update_plugin extras)
    (with_plugin_extras (active st) extras st).

End SelectService.

(** ** SettingDefinition *)

Module SettingDefinition.

(** Modelled from the spec: [SettingDefinition]
    ([meltano.core.setting_definition]) is not among the sources.  The spec
    speaks of a setting definition's name, of the value bound to it, and of
    the marks given to a synthesized one; every attribute other than the
    name and the value is kept in [attrs]. *)
Record t : Type := {
  name : string;
  value : val;
  attrs : dict
}.

(** Modelled from the spec: [setting.with_attrs(value=v)] binds [v] as the
    setting's value and changes nothing else. *)
Definition with_value (v : val) (s : t) : t :=
  {| name := name s; value := v; attrs := attrs s |}.

(** Modelled from the spec: [SettingDefinition.parse], building a setting
    definition from a manifest mapping.  A mapping without a name is
    outside the model, and so is [None]. *)
Definition parse (raw : val) : result exn t :=
  match raw with
  | VDict kvs =>
      match Dict.get "name" kvs with
      | Some (VStr n) =>
          Ok {| name := n;
                value := Dict.get_default "value" VNone kvs;
                attrs := Dict.filter_keys
                           (fun k => negb (among ["name"; "value"] k)) kvs |}
      | _ => Err IllTyped
      end
  | VNone => Err IllTyped
  | _ => Err TypeError
  end.

(** Modelled from the spec: the flattening of nested default objects, "a
    nested object's keys are joined into dotted paths". *)
Fixpoint flatten_at (path : string) (v : val) : list (string * val) :=
  match v with
  | VDict kvs =>
      (fix go (kvs : list (string * val)) : list (string * val) :=
         match kvs with
         | [] => []
         | (k, x) :: rest => flatten_at (path +++ "." +++ k) x ++ go rest
         end) kvs
  | _ => [(path, v)]
  end.

Definition flatten (config : dict) : dict :=
  flat_map (fun kv => flatten_at (fst kv) (snd kv)) config.

(** Modelled from the spec: [SettingDefinition.from_missing(defs, config,
    **marks)] synthesizes a definition, carrying [marks], for every key of
    the flattened [config] that no definition of [defs] is named after. *)
Definition from_missing (defs : list t) (config marks : dict) : list t :=
  let names := List.map name defs in
  List.map (fun kv => {| name := fst kv; value := snd kv; attrs := marks |})
    (Dict.filter_keys (fun k => negb (among names k)) (flatten config)).

End SettingDefinition.

(** ** Keyword arguments *)

(** What a keyword of a manifest entry may hold: plain data, or setting
    definitions that have been built already. *)
Inductive arg : Type :=
| AVal (v : val)
| ASettings (l : list SettingDefinition.t).

Definition kwargs : Type := list (string * arg).

(** An [Optional[str]] parameter; an absent keyword takes the default
    [None]. *)
Definition as_opt_str (a : option arg) : result exn (option string) :=
  match a with
  | None | Some (AVal VNone) => Ok None
  | Some (AVal (VStr s)) => Ok (Some s)
  | Some _ => Err IllTyped
  end.

(** An [Optional[bool]] parameter. *)
Definition as_opt_bool (a : option arg) : result exn (option bool) :=
  match a with
  | None | Some (AVal VNone) => Ok None
  | Some (AVal (VBool b)) => Ok (Some b)
  | Some _ => Err IllTyped
  end.

(** A required [str] parameter. *)
Definition as_str (a : option arg) : result exn string :=
  match a with
  | None => Err TypeError
  | Some (AVal (VStr s)) => Ok s
  | Some _ => Err IllTyped
  end.

(** [list(x)] for a parameter whose default is [[]]. *)
Definition as_list (a : option arg) : result exn (list val) :=
  match a with
  | None => Ok []
  | Some (AVal v) => py_iter v
  | Some (ASettings _) => Err IllTyped
  end.

(** What [list(x)] raises for a parameter whose default is [[]]:
    [TypeError] when [x] is not iterable, nothing otherwise. *)
Definition iterable (a : option arg) : result exn unit :=
  match a with
  | Some (AVal v) => checked <- py_iter v ;; Ok tt
  | Some (ASettings _) | None => Ok tt
  end.

(** [list(map(SettingDefinition.parse, x))] for a parameter whose default is
    [[]]; a definition that is built already is returned by [parse] as it
    is. *)
Definition as_settings (a : option arg)
  : result exn (list SettingDefinition.t) :=
  match a with
  | None => Ok []
  | Some (AVal v) => l <- py_iter v ;; mapM SettingDefinition.parse l
  | Some (ASettings l) => Ok l
  end.

(** The keywords a [**extras] parameter collects hold plain data. *)
Definition as_extras (kw : kwargs) : result exn dict :=
  mapM (fun ka =>
          match snd ka with
          | AVal v => Ok (fst ka, v)
          | ASettings _ => Err IllTyped
          end) kw.

Definition of_extras (d : dict) : kwargs :=
  List.map (fun kv => (fst kv, AVal (snd kv))) d.

(** Modelled from the spec: one item of the iteration over a Canonical
    object (the class [Canonical] of [meltano.core.behavior.canonical] is not
    among the sources).  The manifest shape of the spec (section 6) marks
    the fields that may be null as optional: a field that is not set is not
    listed. *)
Definition item_of {A} (k : string) (v : val) (f : val -> A)
  : list (string * A) :=
  if is_none v then [] else [(k, f v)].

(** ** Variant *)

Module Variant.

Definition ORIGINAL_NAME : string := "original".
Definition DEFAULT_NAME : string := "default".

Record t : Type := {
  name : option string;
  original : option bool;
  deprecated : option bool;
  docs : option string;
  repo : option string;
  pip_url : option string;
  executable : option string;
  capabilities : list val;
  settings_group_validation : list val;
  settings : list SettingDefinition.t;
  extras : dict
}.

(** The named parameters of [__init__]; any other keyword is an extra. *)
Definition PARAMS : list string :=
  ["name"; "original"; "deprecated"; "docs"; "repo"; "pip_url";
   "executable"; "capabilities"; "settings_group_validation"; "settings"].

(** [Variant( **kw)].  A keyword [self] is a second value for the first
    parameter.  The arguments of [super().__init__] are evaluated in their
    order, and the three that copy a list are the ones that may raise; the
    attributes are then typed by the annotations. *)
Definition __init__ (kw : kwargs) : result exn t :=
  if Dict.mem "self" kw then Err TypeError else
  copied <- iterable (Dict.get "capabilities" kw) ;;
  copied <- iterable (Dict.get "settings_group_validation" kw) ;;
  settings <- as_settings (Dict.get "settings" kw) ;;
  name <- as_opt_str (Dict.get "name" kw) ;;
  original <- as_opt_bool (Dict.get "original" kw) ;;
  deprecated <- as_opt_bool (Dict.get "deprecated" kw) ;;
  docs <- as_opt_str (Dict.get "docs" kw) ;;
  repo <- as_opt_str (Dict.get "repo" kw) ;;
  pip_url <- as_opt_str (Dict.get "pip_url" kw) ;;
  executable <- as_opt_str (Dict.get "executable" kw) ;;
  capabilities <- as_list (Dict.get "capabilities" kw) ;;
  settings_group_validation <-
    as_list (Dict.get "settings_group_validation" kw) ;;
  extras <-
    as_extras (Dict.filter_keys (fun k => negb (among PARAMS k)) kw) ;;
  Ok {| name := name; original := original; deprecated := deprecated;
        docs := docs; repo := repo; pip_url := pip_url;
        executable := executable; capabilities := capabilities;
        settings_group_validation := settings_group_validation;
        settings := settings; extras := extras |}.

(** [Variant(name, **extras)]: [name] is given by position, so a keyword
    of that name is a second value for it. *)
Definition __init__positional (name : option string) (extras : kwargs)
  : result exn t :=
  if Dict.mem "name" extras then Err TypeError
  else __init__ (("name", AVal (of_opt_str name)) :: extras).

(** [variant.extras = extras] *)
Definition set_extras (extras : dict) (v : t) : t :=
  {| name := name v; original := original v; deprecated := deprecated v;
     docs := docs v; repo := repo v; pip_url := pip_url v;
     executable := executable v; capabilities := capabilities v;
     settings_group_validation := settings_group_validation v;
     settings := settings v; extras := extras |}.

(** Modelled from the spec: the items of the iteration over a variant, its
    name and its extras apart: the fields in declaration order, a field that
    is not set left out. *)
Definition fields (v : t) : kwargs :=
  item_of "original" (of_opt_bool (original v)) AVal
  ++ item_of "deprecated" (of_opt_bool (deprecated v)) AVal
  ++ item_of "docs" (of_opt_str (docs v)) AVal
  ++ item_of "repo" (of_opt_str (repo v)) AVal
  ++ item_of "pip_url" (of_opt_str (pip_url v)) AVal
  ++ item_of "executable" (of_opt_str (executable v)) AVal
  ++ [("capabilities", AVal (VList (capabilities v)));
      ("settings_group_validation",
        AVal (VList (settings_group_validation v)));
      ("settings", ASettings (settings v))].

(** Modelled from the spec: the iteration over a variant lists its fields
    in declaration order and the keys of [extras] in place of [extras] (the
    manifest shape of the spec, section 6). *)
Definition items (v : t) : kwargs :=
  item_of "name" (of_opt_str (name v)) AVal
  ++ fields v
  ++ of_extras (extras v).

End Variant.

(** ** PluginDefinition *)

Module PluginDefinition.

(** The identity of [PluginRef] ([type], [name]), the attributes
    [__init__] sets, in the order in which it sets them. *)
Record t : Type := {
  type : PluginType.t;
  name : string;
  namespace : string;
  hidden : val;
  label : val;
  logo_url : val;
  description : val;
  extras : dict;
  variants : list Variant.t
}.

(** [PluginRef.__eq__]: the name and the type decide. *)
Definition __eq__ (a b : t) : bool :=
  String.eqb (name a) (name b) && PluginType.eqb (type a) (type b).

(** [PluginRef.__hash__]: the hash of the pair of the type and the name,
    whatever the hash function is. *)
Section Hash.

Variable hash : PluginType.t * string -> Z.

Definition __hash__ (d : t) : Z := hash (type d, name d).

End Hash.

(** An element of the [variants] argument: a variant, or the mapping of a
    manifest to build one from. *)
Inductive variant_src : Type :=
| Parsed (v : Variant.t)
| Raw (kw : kwargs).

(** Modelled from the spec: [Variant.parse] ([Canonical.parse], not among
    the sources) returns a variant as it is and builds one from a mapping
    with [Variant( **mapping)]. *)
Definition parse_variant (x : variant_src) : result exn Variant.t :=
  match x with
  | Parsed v => Ok v
  | Raw kw => Variant.__init__ kw
  end.

Definition PRESENTATION_ATTRS : list string :=
  ["hidden"; "label"; "logo_url"; "description"].

(** The value a presentation attribute takes from the keywords. *)
Definition popped (k : string) (kw : kwargs) : val :=
  match Dict.get k kw with
  | Some (AVal x) => x
  | _ => VNone
  end.

(** The statements of [__init__] after the [if]: [set_presentation_attrs]
    pops the four presentation keys off [extras] (an absent key gives
    [None]), and what is left of [extras] is stored. *)
Definition finish (plugin_type : PluginType.t) (name namespace : string)
    (extras : dict) (variants : list variant_src) : result exn t :=
  let hidden := Dict.get_default "hidden" VNone extras in
  let extras := Dict.remove "hidden" extras in
  let label := Dict.get_default "label" VNone extras in
  let extras := Dict.remove "label" extras in
  let logo_url := Dict.get_default "logo_url" VNone extras in
  let extras := Dict.remove "logo_url" extras in
  let description := Dict.get_default "description" VNone extras in
  let extras := Dict.remove "description" extras in
  variants <- mapM parse_variant variants ;;
  Ok {| type := plugin_type; name := name; namespace := namespace;
        hidden := hidden; label := label; logo_url := logo_url;
        description := description; extras := extras;
        variants := variants |}.

Definition __init__ (plugin_type : PluginType.t) (name namespace : string)
    (variant : option string) (variants : list variant_src)
    (extras : kwargs) : result exn t :=
  match variants with
  | [] =>
      variant <- Variant.__init__positional variant extras ;;
      (* Any properties considered "extra" by the variant should be
         considered extras of the plugin definition. *)
      let extras := Variant.extras variant in
      let variant := Variant.set_extras [] variant in
      finish plugin_type name namespace extras [Parsed variant]
  | _ :: _ =>
      extras <- as_extras extras ;;
      finish plugin_type name namespace extras variants
  end.

(** [self._defaults["label"]] and [self._defaults["logo_url"]]: what the
    attribute reads as while it is not set. *)
Definition default_label (d : t) : string := name d.

Definition strip_prefix (prefix s : string) : option string :=
  if String.prefix prefix s
  then Some (substring (String.length prefix)
               (String.length s - String.length prefix) s)
  else None.

Definition default_logo_url (d : t) : string :=
  let short_name :=
    match strip_prefix "tap-" (name d) with
    | Some r => r
    | None =>
        match strip_prefix "target-" (name d) with
        | Some r => r
        | None => name d
        end
    end in
  "/static/logos/" +++ short_name +++ "-logo.png".

(** *** Iteration *)

(** What an item of the iteration holds. *)
Inductive field : Type :=
| FArg (a : arg)
| FVariants (l : list Variant.t).

Definition FVal (v : val) : field := FArg (AVal v).

(** Modelled from the spec: [super().__iter__()], the iteration of
    [Canonical] over the definition: its fields in declaration order, a
    field that is not set left out, the keys of [extras] in place of
    [extras]. *)
Definition own_items (d : t) : list (string * field) :=
  [("name", FVal (VStr (name d))); ("namespace", FVal (VStr (namespace d)))]
  ++ item_of "hidden" (hidden d) FVal
  ++ item_of "label" (label d) FVal
  ++ item_of "logo_url" (logo_url d) FVal
  ++ item_of "description" (description d) FVal
  ++ List.map (fun kv => (fst kv, FVal (snd kv))) (extras d).

Definition items (d : t) : list (string * field) :=
  own_items d ++ [("variants", FVariants (variants d))].

(** [len(v)] *)
Definition len (v : field) : result exn nat :=
  match v with
  | FVariants l => Ok (List.length l)
  | FArg (ASettings l) => Ok (List.length l)
  | FArg (AVal (VList xs)) => Ok (List.length xs)
  | FArg (AVal (VDict kvs)) => Ok (List.length kvs)
  | FArg (AVal (VStr s)) => Ok (String.length s)
  | FArg (AVal _) => Err TypeError
  end.

(** The items of the sole variant, its [name] renamed. *)
Definition inlined (v : Variant.t) : list (string * field) :=
  List.map (fun ka =>
              let variant_k := fst ka in
              let variant_k :=
                if String.eqb variant_k "name" then "variant"
                else variant_k in
              (variant_k, FArg (snd ka)))
    (Variant.items v).

(** What one item of [super().__iter__()] is turned into.  A value of
    length 1 under the key [variants] that is not a list of variants is
    outside the model. *)
Definition iter_item (kv : string * field)
  : result exn (list (string * field)) :=
  let (k, v) := kv in
  if String.eqb k "variants" then
    n <- len v ;;
    if Nat.eqb n 1 then
      match v with
      | FVariants (v0 :: _) => Ok (inlined v0)
      | _ => Err IllTyped
      end
    else Ok [(k, v)]
  else Ok [(k, v)].

Definition __iter__ (d : t) : result exn (list (string * field)) :=
  parts <- mapM iter_item (items d) ;;
  Ok (concat parts).

(** *** Construction from a manifest entry *)

(** The named parameters of [__init__] that a keyword can bind. *)
Definition PARAMS : list string :=
  ["name"; "namespace"; "variant"; "variants"].

(** The value of a keyword that is bound to a parameter other than
    [variants]. *)
Definition as_arg (f : option field) : result exn (option arg) :=
  match f with
  | None => Ok None
  | Some (FArg a) => Ok (Some a)
  | Some (FVariants _) => Err IllTyped
  end.

(** Truth value of plain data. *)
Definition truthy (v : val) : bool :=
  match v with
  | VNone => false
  | VBool b => b
  | VInt n => negb (Z.eqb n 0)
  | VStr s => negb (String.eqb s "")
  | VList xs => match xs with [] => false | _ => true end
  | VDict kvs => match kvs with [] => false | _ => true end
  end.

(** An element of a [variants] list of plain data: a mapping, from which
    [Variant.parse] builds a variant.  [None] is outside the model. *)
Definition raw_variant (x : val) : result exn variant_src :=
  match x with
  | VDict kvs => Ok (Raw (of_extras kvs))
  | VNone => Err IllTyped
  | _ => Err TypeError
  end.

(** The [variants] argument: a list of variants, or of mappings. *)
Definition as_variants (f : option field) : result exn (list variant_src) :=
  match f with
  | None => Ok []
  | Some (FVariants l) => Ok (List.map Parsed l)
  | Some (FArg (AVal v)) =>
      if truthy v then l <- py_iter v ;; mapM raw_variant l else Ok []
  | Some (FArg (ASettings _)) => Err IllTyped
  end.

(** [PluginDefinition(plugin_type, **fields)]: the keywords named after a
    parameter are bound to it, the others are collected in [extras]; a
    keyword [self] or [plugin_type] is a second value for a parameter that
    is given by position. *)
Definition new (plugin_type : PluginType.t) (fields : list (string * field))
  : result exn t :=
  if Dict.mem "self" fields || Dict.mem "plugin_type" fields
  then Err TypeError else
  name <- (a <- as_arg (Dict.get "name" fields) ;; as_str a) ;;
  namespace <- (a <- as_arg (Dict.get "namespace" fields) ;; as_str a) ;;
  variant <- (a <- as_arg (Dict.get "variant" fields) ;; as_opt_str a) ;;
  variants <- as_variants (Dict.get "variants" fields) ;;
  extras <-
    mapM (fun kf => a <- as_arg (Some (snd kf)) ;;
                    match a with
                    | Some a => Ok (fst kf, a)
                    | None => Err IllTyped
                    end)
      (Dict.filter_keys (fun k => negb (among PARAMS k)) fields) ;;
  __init__ plugin_type name namespace variant variants extras.

(** Modelled from the spec: re-parsing a serialized definition (no parser
    is among the sources).  The items are collected in a mapping, and the
    mapping is handed to the constructor with the type of the plugin, which
    is no item of the iteration. *)
Definition reparse (plugin_type : PluginType.t)
    (serialized : list (string * field)) : result exn t :=
  new plugin_type (Dict.of_items serialized).

(** The keys to which a manifest entry in flat form gives a meaning: the
    parameters of the two constructors and the presentation attributes. *)
Definition RESERVED : list string :=
  PARAMS ++ ["self"; "plugin_type"] ++ Variant.PARAMS ++ PRESENTATION_ATTRS.

(** A definition in flat form: one variant, which has no extras of its
    own, and extras that are a dictionary without reserved keys. *)
Definition flat (d : t) : Prop :=
  (exists v, variants d = [v] /\ Variant.extras v = []) /\
  Dict.wf (extras d) /\
  forall k, In k (Dict.keys (extras d)) -> among RESERVED k = false.

(** The presentation attributes that are set, as plain bindings. *)
Definition presentation (d : t) : dict :=
  item_of "hidden" (hidden d) (fun x => x)
  ++ item_of "label" (label d) (fun x => x)
  ++ item_of "logo_url" (logo_url d) (fun x => x)
  ++ item_of "description" (description d) (fun x => x).

(** The keywords that the entry of a definition in flat form leaves to
    [**extras]. *)
Definition flat_extras (d : t) (v : Variant.t) : kwargs :=
  of_extras (presentation d ++ extras d) ++ Variant.fields v.

(** *** Variant lookup *)

Inductive error : Type :=
| VariantNotFoundError (plugin : t) (variant_name : string)
    (message : string)
| Raised (e : exn).

(** The name [list_variant_names] shows for the variant at index [i]. *)
Definition listed_name (i : nat) (variant : Variant.t) : string :=
  let name :=
    match Variant.name variant with
    | Some n => if String.eqb n "" then Variant.ORIGINAL_NAME else n
    | None => Variant.ORIGINAL_NAME
    end in
  if Nat.eqb i 0 then name +++ " (default)"
  else
    match Variant.deprecated variant with
    | Some true => name +++ " (deprecated)"
    | _ => name
    end.

Fixpoint enumerate_from {A} (i : nat) (l : list A) : list (nat * A) :=
  match l with
  | [] => []
  | x :: l' => (i, x) :: enumerate_from (S i) l'
  end.

Definition list_variant_names (d : t) : string :=
  let names :=
    List.map (fun iv => listed_name (fst iv) (snd iv))
      (enumerate_from 0 (variants d)) in
  Str.join ", " names.

Definition message (plugin : t) (variant_name : string) : string :=
  let message :=
    Str.capitalize (PluginType.descriptor (type plugin))
    +++ " '" +++ name plugin +++ "' variant '" +++ variant_name
    +++ "' is not known to Meltano. " in
  message +++ "Variants: " +++ list_variant_names plugin.

(** Modelled from the spec: [find_named] ([meltano.core.utils], not among
    the sources) is the exact-name lookup: the first element whose name is
    the given one, [NotFound] (here [None]) when there is none. *)
Definition find_named (xs : list Variant.t) (name : string)
  : option Variant.t :=
  find (fun x => match Variant.name x with
                 | Some n => String.eqb n name
                 | None => false
                 end) xs.

Definition get_variant (d : t) (variant_name : string)
  : result error Variant.t :=
  match find_named (variants d) variant_name with
  | Some v => Ok v
  | None =>
      Err (VariantNotFoundError d variant_name (message d variant_name))
  end.

(** The argument of [find_variant]: a variant, nothing, or a name. *)
Inductive selector : Type :=
| Instance (v : Variant.t)
| Absent
| Named (s : string).

(** [self.variants[0]] *)
Definition first_variant (d : t) : result error Variant.t :=
  match variants d with
  | v :: _ => Ok v
  | [] => Err (Raised IndexError)
  end.

Definition is_original (v : Variant.t) : bool :=
  match Variant.original v with
  | Some true => true
  | _ => false
  end.

Definition find_variant (d : t) (variant_or_name : selector)
  : result error Variant.t :=
  match variant_or_name with
  | Instance v => Ok v
  | Absent => first_variant d
  | Named s =>
      if String.eqb s Variant.DEFAULT_NAME then first_variant d
      else if String.eqb s Variant.ORIGINAL_NAME then
        match find is_original (variants d) with
        | Some v => Ok v
        | None => first_variant d
        end
      else get_variant d s
  end.

End PluginDefinition.

(** ** BasePlugin *)

Module BasePlugin.

Record t : Type := {
  _plugin_def : PluginDefinition.t;
  _variant : Variant.t
}.

Definition variant (p : t) : option string := Variant.name (_variant p).

(** [self._variant.executable or self._plugin_def.name] *)
Definition executable (p : t) : string :=
  match Variant.executable (_variant p) with
  | Some e =>
      if String.eqb e "" then PluginDefinition.name (_plugin_def p) else e
  | None => PluginDefinition.name (_plugin_def p)
  end.

Definition extras (p : t) : dict :=
  Dict.merge (PluginDefinition.extras (_plugin_def p))
    (Variant.extras (_variant p)).

Definition env_prefixes (p : t) : list string :=
  [PluginDefinition.name (_plugin_def p);
   PluginDefinition.namespace (_plugin_def p)].

Definition is_installable (p : t) : bool :=
  match Variant.pip_url (_variant p) with
  | Some _ => true
  | None => false
  end.

Definition is_invokable (p : t) : bool := is_installable p.

(** [{f"_{k}": v for k, v in self.extras.items()}] *)
Definition defaults (p : t) : dict :=
  Dict.of_items (List.map (fun kv => ("_" +++ fst kv, snd kv)) (extras p)).

(** One round of the loop over [EXTRA_SETTINGS]. *)
Definition bound (defaults : dict) (setting : SettingDefinition.t)
  : SettingDefinition.t :=
  let default_value :=
    Dict.get_default (SettingDefinition.name setting) VNone defaults in
  if negb (is_none default_value)
  then SettingDefinition.with_value default_value setting
  else setting.

Section ExtraSettings.

(** The class attribute, which each category of plugin sets. *)
Variable EXTRA_SETTINGS : list SettingDefinition.t.

(** [SettingDefinition.from_missing(defs, config, **marks)] *)
Variable from_missing :
  list SettingDefinition.t -> dict -> dict -> list SettingDefinition.t.

Definition extra_settings (p : t) : list SettingDefinition.t :=
  let defaults := defaults p in
  let existing_settings := List.map (bound defaults) EXTRA_SETTINGS in
  (* Create setting definitions for unknown defaults,
     including flattened keys of default nested object items *)
  existing_settings
  ++ from_missing existing_settings defaults
       [("custom", VBool false); ("default", VBool true)].

End ExtraSettings.

End BasePlugin.

(** ** Sample data *)

Module Sample.

(** A project without an active environment whose extractor selects two
    patterns. *)
Definition two_patterns : SelectService.state :=
  {| SelectService.environment := false;
     SelectService.extractor_extras :=
       [("select", VList [VStr "users.*"; VStr "orders.*"])];
     SelectService.environment_extras := [];
     SelectService.calls := [] |}.

(** A project with an active environment and no pattern yet. *)
Definition no_pattern : SelectService.state :=
  {| SelectService.environment := true;
     SelectService.extractor_extras := [];
     SelectService.environment_extras := [("load_schema", VStr "raw")];
     SelectService.calls := [] |}.

(** A variant with nothing but a name and its two flags. *)
Definition variant (name : option string) (original deprecated : option bool)
  : Variant.t :=
  {| Variant.name := name; Variant.original := original;
     Variant.deprecated := deprecated; Variant.docs := None;
     Variant.repo := None; Variant.pip_url := None;
     Variant.executable := None; Variant.capabilities := [];
     Variant.settings_group_validation := []; Variant.settings := [];
     Variant.extras := [] |}.

(** An extractor with the given variants and nothing else. *)
Definition extractor (name : string) (variants : list Variant.t)
  : PluginDefinition.t :=
  {| PluginDefinition.type := PluginType.EXTRACTORS;
     PluginDefinition.name := name;
     PluginDefinition.namespace := "tap_gitlab";
     PluginDefinition.hidden := VNone; PluginDefinition.label := VNone;
     PluginDefinition.logo_url := VNone;
     PluginDefinition.description := VNone;
     PluginDefinition.extras := [];
     PluginDefinition.variants := variants |}.

(** Its default variant is deprecated; the second one is the original. *)
Definition tap_gitlab : PluginDefinition.t :=
  extractor "tap-gitlab"
    [variant (Some "meltano") None (Some true);
     variant (Some "singer-io") (Some true) None;
     variant (Some "legacy") None (Some true)].

(** A plugin whose definition and variant both carry extras. *)
Definition plugin : BasePlugin.t :=
  {| BasePlugin._plugin_def :=
       {| PluginDefinition.type := PluginType.EXTRACTORS;
          PluginDefinition.name := "tap-gitlab";
          PluginDefinition.namespace := "tap_gitlab";
          PluginDefinition.hidden := VNone;
          PluginDefinition.label := VNone;
          PluginDefinition.logo_url := VNone;
          PluginDefinition.description := VNone;
          PluginDefinition.extras :=
            [("select", VList [VStr "*.*"]);
             ("metadata", VDict [("commits", VDict [("selected", VBool true)])])];
          PluginDefinition.variants := [] |};
     BasePlugin._variant :=
       {| Variant.name := Some "meltano"; Variant.original := None;
          Variant.deprecated := None; Variant.docs := None;
          Variant.repo := None; Variant.pip_url := None;
          Variant.executable := None; Variant.capabilities := [];
          Variant.settings_group_validation := []; Variant.settings := [];
          Variant.extras :=
            [("schema", VNone); ("select", VList [VStr "users.*"])] |} |}.

(** The extra settings an extractor class declares. *)
Definition extractor_settings : list SettingDefinition.t :=
  [{| SettingDefinition.name := "_catalog";
      SettingDefinition.value := VNone; SettingDefinition.attrs := [] |};
   {| SettingDefinition.name := "_select";
      SettingDefinition.value := VList [VStr "*.*"];
      SettingDefinition.attrs := [] |};
   {| SettingDefinition.name := "_schema";
      SettingDefinition.value := VStr "public";
      SettingDefinition.attrs := [] |}].

(** The flat fields of the spec's example, and the same with a label. *)
Definition flat_fields : kwargs :=
  [("pip_url", AVal (VStr "x")); ("foo", AVal (VStr "bar"))].

Definition labelled_fields : kwargs :=
  [("pip_url", AVal (VStr "x")); ("label", AVal (VStr "GitLab"));
   ("foo", AVal (VStr "bar"))].

(** A manifest entry in flat form. *)
Definition flat_entry : list (string * PluginDefinition.field) :=
  [("name", PluginDefinition.FVal (VStr "tap-gitlab"));
   ("namespace", PluginDefinition.FVal (VStr "tap_gitlab"));
   ("label", PluginDefinition.FVal (VStr "GitLab"));
   ("variant", PluginDefinition.FVal (VStr "v1"));
   ("pip_url", PluginDefinition.FVal (VStr "x"));
   ("capabilities",
     PluginDefinition.FVal (VList [VStr "discover"; VStr "catalog"]));
   ("foo", PluginDefinition.FVal (VStr "bar"))].

(** The definition it describes. *)
Definition flat_definition : PluginDefinition.t :=
  {| PluginDefinition.type := PluginType.EXTRACTORS;
     PluginDefinition.name := "tap-gitlab";
     PluginDefinition.namespace := "tap_gitlab";
     PluginDefinition.hidden := VNone;
     PluginDefinition.label := VStr "GitLab";
     PluginDefinition.logo_url := VNone;
     PluginDefinition.description := VNone;
     PluginDefinition.extras := [("foo", VStr "bar")];
     PluginDefinition.variants :=
       [{| Variant.name := Some "v1"; Variant.original := None;
           Variant.deprecated := None; Variant.docs := None;
           Variant.repo := None; Variant.pip_url := Some "x";
           Variant.executable := None;
           Variant.capabilities := [VStr "discover"; VStr "catalog"];
           Variant.settings_group_validation := [];
           Variant.settings := []; Variant.extras := [] |}] |}.

(** A manifest entry with an explicit list of one variant, which has an
    extra of its own. *)
Definition one_variant_entry (extra : string)
  : list (string * PluginDefinition.field) :=
  [("name", PluginDefinition.FVal (VStr "tap-gitlab"));
   ("namespace", PluginDefinition.FVal (VStr "tap_gitlab"));
   ("variants",
     PluginDefinition.FVal
       (VList [VDict [("name", VStr "v1"); (extra, VStr "x")]]))].

End Sample.

(** * Properties *)

#[local] Arguments String.eqb : simpl nomatch.
#[local] Arguments among : simpl never.

(** ** Dictionaries *)

Section DictFacts.

Context {A : Type}.
Implicit Types (d items : list (string * A)) (k : string) (v : A).

Lemma get_cons k k' v d :
  Dict.get k ((k', v) :: d) = if String.eqb k' k then Some v else Dict.get k d.
Proof. reflexivity. Qed.

Lemma get_set k k' v d :
  Dict.get k (Dict.set k' v d) =
  if String.eqb k' k then Some v else Dict.get k d.
Proof.
  induction d as [|[k0 v0] d IH]; simpl.
  - destruct (String.eqb k' k); reflexivity.
  - destruct (String.eqb k0 k') eqn:E0; simpl.
    + apply String.eqb_eq in E0; subst k0.
      destruct (String.eqb k' k); reflexivity.
    + destruct (String.eqb k0 k) eqn:E1; [|exact IH].
      apply String.eqb_eq in E1; subst k0.
      rewrite String.eqb_sym, E0. reflexivity.
Qed.

Lemma set_set k v v' d :
  Dict.set k v (Dict.set k v' d) = Dict.set k v d.
Proof.
  induction d as [|[k0 v0] d IH]; simpl.
  - rewrite String.eqb_refl. reflexivity.
  - destruct (String.eqb k0 k) eqn:E; simpl; rewrite E; [reflexivity|].
    now rewrite IH.
Qed.

Lemma get_none k d : Dict.get k d = None <-> ~ In k (Dict.keys d).
Proof.
  induction d as [|[k0 v0] d IH]; simpl; [tauto|].
  destruct (String.eqb k0 k) eqn:E.
  - apply String.eqb_eq in E. split; [discriminate | tauto].
  - apply String.eqb_neq in E. tauto.
Qed.

Lemma in_keys k d : In k (Dict.keys d) <-> Dict.get k d <> None.
Proof.
  induction d as [|[k0 v0] d IH]; simpl; [tauto|].
  destruct (String.eqb k0 k) eqn:E.
  - apply String.eqb_eq in E. split; [discriminate | tauto].
  - apply String.eqb_neq in E. tauto.
Qed.

Lemma set_fresh k v d :
  ~ In k (Dict.keys d) -> Dict.set k v d = d ++ [(k, v)].
Proof.
  induction d as [|[k0 v0] d IH]; simpl; intros H; [reflexivity|].
  destruct (String.eqb k0 k) eqn:E.
  - apply String.eqb_eq in E. tauto.
  - rewrite IH by tauto. reflexivity.
Qed.

Lemma keys_set k v d :
  Dict.keys (Dict.set k v d) =
  if Dict.mem k d then Dict.keys d else Dict.keys d ++ [k].
Proof.
  unfold Dict.mem.
  induction d as [|[k0 v0] d IH]; simpl; [reflexivity|].
  destruct (String.eqb k0 k) eqn:E; simpl; [reflexivity|].
  rewrite IH. destruct (Dict.get k d); reflexivity.
Qed.

Lemma wf_set k v d : Dict.wf d -> Dict.wf (Dict.set k v d).
Proof.
  unfold Dict.wf. rewrite keys_set. unfold Dict.mem.
  destruct (Dict.get k d) eqn:E; [tauto|].
  intros H. apply get_none in E.
  apply NoDup_app; [exact H | repeat constructor; simpl; tauto |].
  intros x Hx [<-|[]]. tauto.
Qed.

Lemma wf_update d items : Dict.wf d -> Dict.wf (Dict.update d items).
Proof.
  unfold Dict.update. revert d.
  induction items as [|[k v] items IH]; simpl; intros d H; [exact H|].
  apply IH, wf_set, H.
Qed.

Lemma wf_of_items items : Dict.wf (Dict.of_items items).
Proof. apply wf_update. constructor. Qed.

Lemma wf_merge d1 d2 : Dict.wf (Dict.merge d1 d2).
Proof. apply wf_update, wf_of_items. Qed.

(** Updating with a dictionary: its bindings win, the others stay. *)
Lemma get_update k d items :
  Dict.wf items ->
  Dict.get k (Dict.update d items) =
  match Dict.get k items with
  | Some v => Some v
  | None => Dict.get k d
  end.
Proof.
  unfold Dict.update, Dict.wf. revert d.
  induction items as [|[k0 v0] items IH]; simpl; intros d H; [reflexivity|].
  inversion H as [|? ? Hnotin Hnodup]; subst.
  rewrite IH by exact Hnodup. rewrite get_set. simpl.
  destruct (String.eqb k0 k) eqn:E.
  - apply String.eqb_eq in E; subst k0.
    apply get_none in Hnotin. rewrite Hnotin. reflexivity.
  - reflexivity.
Qed.

Lemma update_fresh d items :
  Dict.wf (d ++ items) -> Dict.update d items = d ++ items.
Proof.
  unfold Dict.update, Dict.wf, Dict.keys. revert d.
  induction items as [|[k v] items IH]; simpl; intros d H.
  - now rewrite app_nil_r.
  - rewrite set_fresh.
    + rewrite IH; rewrite <- app_assoc; [reflexivity | exact H].
    + rewrite map_app in H. simpl in H.
      apply NoDup_remove_2 in H. intros Hin. apply H.
      apply in_or_app. now left.
Qed.

(** Building a dictionary from the items of a dictionary gives it back. *)
Lemma of_items_wf d : Dict.wf d -> Dict.of_items d = d.
Proof. intros H. unfold Dict.of_items. now rewrite update_fresh. Qed.

Lemma get_app k d1 d2 :
  Dict.get k (d1 ++ d2) =
  match Dict.get k d1 with
  | Some v => Some v
  | None => Dict.get k d2
  end.
Proof.
  induction d1 as [|[k0 v0] d1 IH]; simpl; [reflexivity|].
  destruct (String.eqb k0 k); [reflexivity | exact IH].
Qed.

Lemma get_filter_keys (p : string -> bool) k d :
  Dict.get k (Dict.filter_keys p d) = if p k then Dict.get k d else None.
Proof.
  unfold Dict.filter_keys.
  induction d as [|[k0 v0] d IH]; simpl.
  - destruct (p k); reflexivity.
  - destruct (String.eqb k0 k) eqn:E.
    + apply String.eqb_eq in E; subst k0.
      destruct (p k) eqn:Ep; simpl.
      * now rewrite String.eqb_refl.
      * exact IH.
    + destruct (p k0); simpl; [rewrite E|]; exact IH.
Qed.

Lemma get_remove k k' d :
  k <> k' -> Dict.get k (Dict.remove k' d) = Dict.get k d.
Proof.
  intros Hne.
  induction d as [|[k0 v0] d IH]; simpl; [reflexivity|].
  destruct (String.eqb k0 k') eqn:E; simpl.
  - apply String.eqb_eq in E; subst k0.
    destruct (String.eqb k' k) eqn:E'; [|reflexivity].
    apply String.eqb_eq in E'. congruence.
  - destruct (String.eqb k0 k); [reflexivity | exact IH].
Qed.

(** In a dictionary, deleting a key leaves no binding of it. *)
Lemma remove_wf k d :
  Dict.wf d ->
  Dict.remove k d = Dict.filter_keys (fun k' => negb (String.eqb k' k)) d.
Proof.
  unfold Dict.wf, Dict.filter_keys.
  induction d as [|[k0 v0] d IH]; simpl; intros H; [reflexivity|].
  inversion H as [|? ? Hnotin Hnodup]; subst.
  destruct (String.eqb k0 k) eqn:E; simpl.
  - apply String.eqb_eq in E; subst k0.
    symmetry. apply forallb_filter_id. apply forallb_forall.
    intros [k1 v1] Hin. simpl.
    destruct (String.eqb k1 k) eqn:E1; [|reflexivity].
    apply String.eqb_eq in E1; subst k1. exfalso. apply Hnotin.
    change k with (fst (k, v1)). now apply in_map.
  - now rewrite IH.
Qed.

End DictFacts.

(** ** PluginType *)

Lemma lookup_value (t : PluginType.t) :
  PluginType.lookup (PluginType.value t) = Some t.
Proof. destruct t; reflexivity. Qed.

Lemma lookup_some (v : string) (t : PluginType.t) :
  PluginType.lookup v = Some t -> PluginType.value t = v.
Proof.
  unfold PluginType.lookup. intros H.
  apply find_some in H. destruct H as [_ H].
  now apply String.eqb_eq.
Qed.

Lemma lookup_none (v : string) :
  PluginType.lookup v = None -> forall t, PluginType.value t <> v.
Proof.
  unfold PluginType.lookup. intros H t Ht.
  assert (Hin : In t PluginType.members)
    by (destruct t; simpl; tauto).
  apply (find_none _ _ H) in Hin.
  apply String.eqb_neq in Hin. contradiction.
Qed.

Lemma singular_plus_s (t : PluginType.t) :
  PluginType.normalize (PluginType.singular t) = PluginType.value t.
Proof. destruct t; reflexivity. Qed.

Lemma value_normal (t : PluginType.t) :
  PluginType.normalize (PluginType.value t) = PluginType.value t.
Proof. destruct t; reflexivity. Qed.

(** C6: for every plugin type [t], [from_cli_argument] maps both
    [t.singular] and [t.value] to [t].  In general it resolves its argument
    with an "s" appended unless the argument ends with one: it returns the
    member of that value, and raises [ValueError] (the invalid-enum error)
    exactly when no member has that value. *)
Theorem from_cli_argument_resolves :
  (forall t : PluginType.t,
      PluginType.from_cli_argument (PluginType.singular t) = Ok t /\
      PluginType.from_cli_argument (PluginType.value t) = Ok t) /\
  (forall v : string,
      let normalized := if Str.endswith v "s" then v else v +++ "s" in
      (forall t, PluginType.from_cli_argument v = Ok t <->
                 PluginType.value t = normalized) /\
      (PluginType.from_cli_argument v = Err ValueError <->
       forall t, PluginType.value t <> normalized)).
Proof.
  split.
  - intros t. unfold PluginType.from_cli_argument, PluginType.of_value.
    rewrite singular_plus_s, value_normal, lookup_value. now split.
  - intros v normalized.
    assert (Hn : PluginType.normalize v = normalized).
    { unfold PluginType.normalize, normalized.
      now destruct (Str.endswith v "s"). }
    unfold PluginType.from_cli_argument, PluginType.of_value. rewrite Hn.
    destruct (PluginType.lookup normalized) as [t0|] eqn:E; split.
    + intros t. split.
      * intros [= <-]. now apply lookup_some.
      * intros <-. rewrite lookup_value in E. congruence.
    + split; [discriminate|]. intros H.
      apply lookup_some in E. now apply H in E.
    + intros t. split; [discriminate|]. intros Ht.
      now apply (lookup_none _ E) in Ht.
    + split; [|reflexivity]. intros _. now apply lookup_none.
Qed.

(** ** SelectService *)

Section SelectServiceFacts.

Import SelectService.

(** A run of [update] whose list operation raises stops there. *)
Lemma update_raises e a x r st err :
  mutate r (_get_pattern_string e a x)
    (match select st with Some v => v | None => VList [] end) = Err err ->
  update e a x r st = (Err err, st).
Proof.
  unfold update, select, active, and_then, read, raise. simpl.
  intros H. destruct (environment st); simpl in *; now rewrite H.
Qed.

(** A run whose list operation succeeds stores the new list under
    [select] and hands the plugin to the plugin service. *)
Lemma update_returns e a x r st patterns :
  mutate r (_get_pattern_string e a x)
    (match select st with Some v => v | None => VList [] end) = Ok patterns ->
  update e a x r st =
  (Ok tt,
   committed (Dict.set "select" patterns (plugin_extras (active st) st)) st).
Proof.
  unfold update, select, active, committed, and_then, read, write, ret.
  destruct st as [[|] ee ve cs]; simpl; intros H; rewrite H;
    match goal with
    | |- context [Dict.get "select" ?d] => destruct (Dict.get "select" d)
    end; simpl; rewrite ?set_set; reflexivity.
Qed.

Lemma select_committed extras st :
  select (committed extras st) = Dict.get "select" extras.
Proof.
  unfold select, committed, active, record_call.
  destruct (environment st) eqn:E; simpl; rewrite E; reflexivity.
Qed.

Lemma list_remove_absent p l :
  ~ In (VStr p) l -> list_remove p l = None.
Proof.
  induction l as [|x l IH]; simpl; intros H; [reflexivity|].
  destruct (val_eq_str x p) eqn:E.
  - destruct x; try discriminate. apply String.eqb_eq in E. subst.
    tauto.
  - rewrite IH by tauto. reflexivity.
Qed.

Lemma list_remove_first p l1 l2 :
  ~ In (VStr p) l1 -> list_remove p (l1 ++ VStr p :: l2) = Some (l1 ++ l2).
Proof.
  induction l1 as [|x l1 IH]; simpl; intros H.
  - now rewrite String.eqb_refl.
  - destruct (val_eq_str x p) eqn:E.
    + destruct x; try discriminate. apply String.eqb_eq in E. subst.
      tauto.
    + rewrite IH by tauto. reflexivity.
Qed.

End SelectServiceFacts.

(** C4: [update] builds the pattern "!" + entities_filter + "." +
    attributes_filter when [exclude] is true and entities_filter + "." +
    attributes_filter when it is false, and this is the string it appends to
    the select list; [update("users", "id", exclude=True)] builds
    "!users.id". *)
Theorem update_builds_pattern (entities_filter attributes_filter : string) :
  SelectService._get_pattern_string entities_filter attributes_filter true =
    "!" +++ entities_filter +++ "." +++ attributes_filter /\
  SelectService._get_pattern_string entities_filter attributes_filter false =
    entities_filter +++ "." +++ attributes_filter /\
  SelectService._get_pattern_string "users" "id" true = "!users.id" /\
  forall (exclude : bool) (st : SelectService.state),
    let pattern :=
      if exclude then "!" +++ entities_filter +++ "." +++ attributes_filter
      else entities_filter +++ "." +++ attributes_filter in
    SelectService.select
      (snd (SelectService.update entities_filter attributes_filter exclude
              false st)) =
    match SelectService.select st with
    | None => Some (VList [VStr pattern])
    | Some (VList l) => Some (VList (l ++ [VStr pattern]))
    | Some other => Some other
    end.
Proof.
  repeat split.
  intros exclude st pattern.
  assert (Hp : SelectService._get_pattern_string entities_filter
                 attributes_filter exclude = pattern)
    by (destruct exclude; reflexivity).
  destruct (SelectService.select st) as [v|] eqn:E.
  - destruct v;
      try (rewrite (update_raises _ _ _ _ _ AttributeError);
           [exact E | rewrite E; reflexivity]).
    rewrite (update_returns _ _ _ _ _ (VList (xs ++ [VStr pattern])))
      by (rewrite E, Hp; reflexivity).
    simpl. rewrite select_committed, get_set. reflexivity.
  - rewrite (update_returns _ _ _ _ _ (VList [VStr pattern]))
      by (rewrite E, Hp; reflexivity).
    simpl. rewrite select_committed, get_set. reflexivity.
Qed.

(** C5 (amended): with [remove=False], [update] appends the built pattern to
    the select list of the target config (the empty list when there is
    none), stores the list and hands the config to the plugin service.  With
    [remove=True] it removes the first element that is exactly the pattern.
    Appending a pattern that the list does not hold yet and then removing it
    leaves the list as it was before the append, and removing a pattern that
    the list does not hold raises [ValueError], the missing-element error. *)
Theorem update_appends_and_removes
    (entities_filter attributes_filter : string) (exclude : bool)
    (st : SelectService.state) (l : list val) :
  SelectService.patterns_are st l ->
  let p := SelectService._get_pattern_string entities_filter attributes_filter
             exclude in
  let extras := SelectService.plugin_extras (SelectService.active st) st in
  let update := SelectService.update entities_filter attributes_filter
                  exclude in
  update false st =
    (Ok tt,
     SelectService.committed
       (Dict.set "select" (VList (l ++ [VStr p])) extras) st) /\
  (forall l1 l2,
      l = l1 ++ VStr p :: l2 -> ~ In (VStr p) l1 ->
      update true st =
        (Ok tt,
         SelectService.committed
           (Dict.set "select" (VList (l1 ++ l2)) extras) st)) /\
  (~ In (VStr p) l ->
   exists st1 st2,
     update false st = (Ok tt, st1) /\
     update true st1 = (Ok tt, st2) /\
     SelectService.select st2 = Some (VList l)) /\
  (~ In (VStr p) l -> fst (update true st) = Err ValueError).
Proof.
  intros Hl p extras update.
  assert (Hcur : match SelectService.select st with
                 | Some v => v
                 | None => VList []
                 end = VList l).
  { destruct Hl as [H|[H ->]]; now rewrite H. }
  assert (Happend : update false st =
            (Ok tt,
             SelectService.committed
               (Dict.set "select" (VList (l ++ [VStr p])) extras) st)).
  { apply update_returns. rewrite Hcur. reflexivity. }
  split; [exact Happend|]. split; [|split].
  - intros l1 l2 -> Hfirst. apply update_returns.
    rewrite Hcur. simpl. fold p. now rewrite list_remove_first.
  - intros Habsent. do 2 eexists. split; [exact Happend|]. split.
    + apply update_returns. rewrite select_committed, get_set. simpl.
      fold p. rewrite list_remove_first by exact Habsent.
      rewrite app_nil_r. reflexivity.
    + rewrite select_committed, get_set. reflexivity.
  - intros Habsent. unfold update.
    rewrite (update_raises _ _ _ _ _ ValueError); [reflexivity|].
    rewrite Hcur. simpl. fold p. now rewrite list_remove_absent.
Qed.

Lemma update_appends_and_removes_witness :
  SelectService.update "users" "*" false false Sample.no_pattern =
  (Ok tt,
   SelectService.committed
     [("load_schema", VStr "raw"); ("select", VList [VStr "users.*"])]
     Sample.no_pattern).
Proof.
  exact (proj1 (update_appends_and_removes "users" "*" false
                  Sample.no_pattern []
                  (or_intror (conj eq_refl eq_refl)))).
Defined.

(** C5, the claim as stated fails: the select list may hold a pattern more
    than once, and [remove] drops its first occurrence, not the one that was
    appended.  Appending "users.*" to ["users.*", "orders.*"] and removing it
    again leaves ["orders.*", "users.*"]. *)
Lemma append_then_remove_reorders :
  exists st1 st2,
    SelectService.update "users" "*" false false Sample.two_patterns =
      (Ok tt, st1) /\
    SelectService.update "users" "*" false true st1 = (Ok tt, st2) /\
    SelectService.select Sample.two_patterns =
      Some (VList [VStr "users.*"; VStr "orders.*"]) /\
    SelectService.select st2 =
      Some (VList [VStr "orders.*"; VStr "users.*"]) /\
    SelectService.select st2 <> SelectService.select Sample.two_patterns.
Proof.
  pose (st1 := snd (SelectService.update "users" "*" false false
                      Sample.two_patterns)).
  exists st1, (snd (SelectService.update "users" "*" false true st1)).
  repeat split; try (vm_compute; reflexivity).
  vm_compute. discriminate.
Qed.

(** C10: when [update] is called with [remove=True] for a pattern that the
    select list does not hold, it raises [ValueError] and leaves everything
    as it was: the extras of the target config (and so its [select]) are not
    rewritten, and the plugin service receives neither [update_plugin] nor
    [update_environment_plugin]. *)
Theorem update_remove_absent_changes_nothing
    (entities_filter attributes_filter : string) (exclude : bool)
    (st : SelectService.state) (l : list val) :
  SelectService.patterns_are st l ->
  ~ In (VStr (SelectService._get_pattern_string entities_filter
                attributes_filter exclude)) l ->
  let run := SelectService.update entities_filter attributes_filter exclude
               true st in
  fst run = Err ValueError /\
  snd run = st /\
  SelectService.plugin_extras (SelectService.active st) (snd run) =
    SelectService.plugin_extras (SelectService.active st) st /\
  SelectService.select (snd run) = SelectService.select st /\
  SelectService.calls (snd run) = SelectService.calls st.
Proof.
  intros Hl Habsent run.
  assert (Hrun : run = (Err ValueError, st)).
  { apply update_raises.
    destruct Hl as [H|[H ->]]; rewrite H; simpl;
      now rewrite ?list_remove_absent. }
  rewrite Hrun. repeat split.
Qed.

Lemma update_remove_absent_changes_nothing_witness :
  SelectService.update "users" "id" true true Sample.two_patterns =
  (Err ValueError, Sample.two_patterns).
Proof.
  pose proof (update_remove_absent_changes_nothing "users" "id" true
                Sample.two_patterns [VStr "users.*"; VStr "orders.*"]
                (or_introl eq_refl)) as H.
  simpl in H.
  destruct H as (H1 & H2 & _).
  - intros [H|[H|[]]]; discriminate.
  - reflexivity.
Defined.

(** ** Variant resolution *)

Lemma append_assoc (a b c : string) : (a +++ b) +++ c = a +++ b +++ c.
Proof. induction a as [|ch a IH]; simpl; [reflexivity | now rewrite IH]. Qed.

Section FindFacts.

Context {A : Type} (f : A -> bool).

Lemma find_first (before after : list A) (x : A) :
  Forall (fun y => f y = false) before -> f x = true ->
  find f (before ++ x :: after) = Some x.
Proof.
  induction 1 as [|y before Hy _ IH]; simpl; intros Hx.
  - now rewrite Hx.
  - rewrite Hy. now apply IH.
Qed.

Lemma find_nowhere (l : list A) :
  (forall y, In y l -> f y = false) -> find f l = None.
Proof.
  induction l as [|y l IH]; simpl; intros H; [reflexivity|].
  rewrite (H y) by now left. apply IH. intros z Hz. apply H. now right.
Qed.

End FindFacts.

Lemma is_original_true (v : Variant.t) :
  PluginDefinition.is_original v = true <-> Variant.original v = Some true.
Proof.
  unfold PluginDefinition.is_original.
  destruct (Variant.original v) as [[|]|]; split; congruence.
Qed.

Lemma is_original_false (v : Variant.t) :
  PluginDefinition.is_original v = false <-> Variant.original v <> Some true.
Proof.
  rewrite <- is_original_true.
  destruct (PluginDefinition.is_original v); split; congruence.
Qed.

Lemma named_false (s : string) (v : Variant.t) :
  match Variant.name v with
  | Some n => String.eqb n s
  | None => false
  end = false <-> Variant.name v <> Some s.
Proof.
  destruct (Variant.name v) as [n|]; [|split; congruence].
  destruct (String.eqb n s) eqn:E.
  - apply String.eqb_eq in E. subst. split; congruence.
  - apply String.eqb_neq in E. split; congruence.
Qed.

(** The exact-name lookup finds the first variant of that name. *)
Lemma get_variant_found (d : PluginDefinition.t) (s : string)
    (before after : list Variant.t) (v : Variant.t) :
  PluginDefinition.variants d = before ++ v :: after ->
  Forall (fun x => Variant.name x <> Some s) before ->
  Variant.name v = Some s ->
  PluginDefinition.get_variant d s = Ok v.
Proof.
  intros Hd Hbefore Hv.
  unfold PluginDefinition.get_variant, PluginDefinition.find_named.
  rewrite Hd, find_first; [reflexivity | | ].
  - eapply Forall_impl; [|exact Hbefore]. intros x. apply named_false.
  - rewrite Hv. apply String.eqb_refl.
Qed.

Lemma get_variant_missing (d : PluginDefinition.t) (s : string) :
  (forall v, In v (PluginDefinition.variants d) -> Variant.name v <> Some s) ->
  PluginDefinition.get_variant d s =
  Err (PluginDefinition.VariantNotFoundError d s
         (PluginDefinition.message d s)).
Proof.
  intros H.
  unfold PluginDefinition.get_variant, PluginDefinition.find_named.
  rewrite find_nowhere; [reflexivity|].
  intros v Hv. apply named_false. now apply H.
Qed.

(** The constructor never leaves the list of variants empty. *)
Lemma init_variants_nonempty (plugin_type : PluginType.t)
    (name namespace : string) (variant : option string)
    (variants : list PluginDefinition.variant_src) (extras : kwargs)
    (d : PluginDefinition.t) :
  PluginDefinition.__init__ plugin_type name namespace variant variants extras
    = Ok d ->
  PluginDefinition.variants d <> [].
Proof.
  unfold PluginDefinition.__init__, PluginDefinition.finish.
  destruct variants as [|x xs]; intros H.
  - bind_ok H. injection H as <-. simpl. discriminate.
  - destruct (as_extras extras); [|discriminate].
    cbv beta iota delta [bind] in H.
    destruct (mapM PluginDefinition.parse_variant (x :: xs)) as [vs|] eqn:Hvs;
      [|discriminate].
    injection H as <-. simpl in *.
    repeat bind_ok Hvs. injection Hvs as <-. discriminate.
Qed.

(** C1: for a definition that has a variant (the constructor builds no
    other), [find_variant] returns a [Variant] instance unchanged; for no
    selector and for "default" it returns the first variant in declaration
    order; for "original" it returns the first variant whose [original] flag
    is true, and the first variant in declaration order when none is flagged;
    any other string goes through the exact-name lookup of [get_variant],
    whose variant-not-found error it propagates. *)
Theorem find_variant_resolution (d : PluginDefinition.t)
    (first : Variant.t) (others : list Variant.t) :
  PluginDefinition.variants d = first :: others ->
  (forall v,
      PluginDefinition.find_variant d (PluginDefinition.Instance v) = Ok v) /\
  PluginDefinition.find_variant d PluginDefinition.Absent = Ok first /\
  PluginDefinition.find_variant d (PluginDefinition.Named "default") =
    Ok first /\
  (forall before v after,
      PluginDefinition.variants d = before ++ v :: after ->
      Forall (fun x => Variant.original x <> Some true) before ->
      Variant.original v = Some true ->
      PluginDefinition.find_variant d (PluginDefinition.Named "original") =
        Ok v) /\
  ((forall v, In v (PluginDefinition.variants d) ->
              Variant.original v <> Some true) ->
   PluginDefinition.find_variant d (PluginDefinition.Named "original") =
     Ok first) /\
  (forall s,
      s <> "default" -> s <> "original" ->
      PluginDefinition.find_variant d (PluginDefinition.Named s) =
        PluginDefinition.get_variant d s /\
      (forall before v after,
          PluginDefinition.variants d = before ++ v :: after ->
          Forall (fun x => Variant.name x <> Some s) before ->
          Variant.name v = Some s ->
          PluginDefinition.find_variant d (PluginDefinition.Named s) = Ok v) /\
      ((forall v, In v (PluginDefinition.variants d) ->
                  Variant.name v <> Some s) ->
       exists message,
         PluginDefinition.find_variant d (PluginDefinition.Named s) =
           Err (PluginDefinition.VariantNotFoundError d s message))).
Proof.
  intros Hd.
  assert (Hfirst : PluginDefinition.first_variant d = Ok first)
    by (unfold PluginDefinition.first_variant; now rewrite Hd).
  split; [reflexivity|]. split; [exact Hfirst|]. split; [exact Hfirst|].
  split; [|split].
  - intros before v after Hv Hbefore Horiginal. simpl.
    rewrite Hv, find_first; [reflexivity | | now apply is_original_true].
    eapply Forall_impl; [|exact Hbefore]. intros x. apply is_original_false.
  - intros Hnone. simpl. rewrite find_nowhere; [exact Hfirst|].
    intros v Hv. apply is_original_false. now apply Hnone.
  - intros s Hdefault Horiginal.
    assert (Hs : PluginDefinition.find_variant d (PluginDefinition.Named s) =
                 PluginDefinition.get_variant d s).
    { unfold PluginDefinition.find_variant, Variant.DEFAULT_NAME,
        Variant.ORIGINAL_NAME.
      apply String.eqb_neq in Hdefault, Horiginal.
      now rewrite Hdefault, Horiginal. }
    split; [exact Hs|]. rewrite Hs. split.
    + intros before v after. apply get_variant_found.
    + intros Hmissing. eexists. now apply get_variant_missing.
Qed.

Lemma find_variant_resolution_witness :
  PluginDefinition.find_variant Sample.tap_gitlab PluginDefinition.Absent =
    Ok (Sample.variant (Some "meltano") None (Some true)) /\
  PluginDefinition.find_variant Sample.tap_gitlab
    (PluginDefinition.Named "original") =
    Ok (Sample.variant (Some "singer-io") (Some true) None).
Proof.
  destruct (find_variant_resolution Sample.tap_gitlab _ _ eq_refl)
    as (_ & Habsent & _ & Horiginal & _).
  split; [exact Habsent|].
  apply (Horiginal [Sample.variant (Some "meltano") None (Some true)]
           _ [Sample.variant (Some "legacy") None (Some true)]).
  - reflexivity.
  - repeat constructor. discriminate.
  - reflexivity.
Defined.

(** ** The variant-not-found message *)

Lemma nth_error_enumerate {A B} (f : nat * A -> B) (l : list A) (s i : nat) :
  nth_error (List.map f (PluginDefinition.enumerate_from s l)) i =
  option_map (fun x => f (s + i, x)) (nth_error l i).
Proof.
  revert s i. induction l as [|x l IH]; intros s [|i]; simpl;
    try reflexivity.
  - now rewrite Nat.add_0_r.
  - rewrite IH. now rewrite Nat.add_succ_comm.
Qed.

Lemma length_enumerate {A} (l : list A) (s : nat) :
  List.length (PluginDefinition.enumerate_from s l) = List.length l.
Proof.
  revert s. induction l as [|x l IH]; intros s; simpl;
    [reflexivity | now rewrite IH].
Qed.

(** C3 (amended): for a name that no variant of the definition bears,
    [get_variant] raises the variant-not-found error, which carries the
    definition and the requested name.  Its message lists every variant in
    declaration order, a variant without a name as "original"; the variant at
    index 0 is annotated "(default)" and nothing else, and each later variant
    whose [deprecated] flag is set is annotated "(deprecated)". *)
Theorem get_variant_not_found (d : PluginDefinition.t) (variant_name : string) :
  (forall v, In v (PluginDefinition.variants d) ->
             Variant.name v <> Some variant_name) ->
  exists names : list string,
    PluginDefinition.get_variant d variant_name =
      Err (PluginDefinition.VariantNotFoundError d variant_name
             (Str.capitalize (PluginType.descriptor (PluginDefinition.type d))
              +++ " '" +++ PluginDefinition.name d
              +++ "' variant '" +++ variant_name
              +++ "' is not known to Meltano. Variants: "
              +++ Str.join ", " names)) /\
    List.length names = List.length (PluginDefinition.variants d) /\
    forall (i : nat) (v : Variant.t),
      nth_error (PluginDefinition.variants d) i = Some v ->
      let shown :=
        match Variant.name v with
        | Some n => if String.eqb n "" then "original" else n
        | None => "original"
        end in
      nth_error names i =
        Some (match i, Variant.deprecated v with
              | O, _ => shown +++ " (default)"
              | S _, Some true => shown +++ " (deprecated)"
              | S _, _ => shown
              end).
Proof.
  intros Hmissing.
  exists (List.map (fun iv => PluginDefinition.listed_name (fst iv) (snd iv))
            (PluginDefinition.enumerate_from 0 (PluginDefinition.variants d))).
  split; [|split].
  - rewrite (get_variant_missing d variant_name Hmissing).
    unfold PluginDefinition.message, PluginDefinition.list_variant_names.
    do 2 f_equal. now rewrite !append_assoc.
  - now rewrite length_map, length_enumerate.
  - intros i v Hv shown. rewrite nth_error_enumerate, Hv. simpl.
    unfold PluginDefinition.listed_name. fold shown.
    destruct i; reflexivity.
Qed.

Lemma get_variant_not_found_witness :
  exists names : list string,
    PluginDefinition.get_variant Sample.tap_gitlab "missing" =
      Err (PluginDefinition.VariantNotFoundError Sample.tap_gitlab "missing"
             ("Extractor 'tap-gitlab' variant 'missing' is not known to Meltano. Variants: "
              +++ Str.join ", " names)) /\
    nth_error names 2 = Some "legacy (deprecated)".
Proof.
  destruct (get_variant_not_found Sample.tap_gitlab "missing")
    as (names & Herr & _ & Hnames).
  - intros v [<-|[<-|[<-|[]]]]; discriminate.
  - exists names. split; [exact Herr|].
    exact (Hnames 2 (Sample.variant (Some "legacy") None (Some true)) eq_refl).
Defined.

(** C3, the claim as stated fails: a deprecated variant at index 0 is
    annotated "(default)" only.  The default variant of [Sample.tap_gitlab]
    is deprecated, and the message does not say so. *)
Lemma deprecated_default_not_annotated :
  nth_error (PluginDefinition.variants Sample.tap_gitlab) 0 =
    Some (Sample.variant (Some "meltano") None (Some true)) /\
  PluginDefinition.get_variant Sample.tap_gitlab "missing" =
    Err (PluginDefinition.VariantNotFoundError Sample.tap_gitlab "missing"
           "Extractor 'tap-gitlab' variant 'missing' is not known to Meltano. Variants: meltano (default), singer-io, legacy (deprecated)") /\
  Str.contains "meltano (deprecated)"
    (PluginDefinition.message Sample.tap_gitlab "missing") = false /\
  Str.contains "meltano (default) (deprecated)"
    (PluginDefinition.message Sample.tap_gitlab "missing") = false.
Proof. repeat split. Qed.

(** ** BasePlugin *)

Lemma among_in (names : list string) (k : string) :
  among names k = true <-> In k names.
Proof.
  unfold among. rewrite existsb_exists. split.
  - intros (x & Hx & E). apply String.eqb_eq in E. now subst.
  - intros H. exists k. split; [exact H | apply String.eqb_refl].
Qed.

Lemma among_not_in (names : list string) (k : string) :
  among names k = false <-> ~ In k names.
Proof.
  rewrite <- among_in. destruct (among names k); split; congruence.
Qed.

(** C8: when the extras of the definition and of the variant are
    dictionaries, the extras of the plugin are the definition's extras
    overridden key by key by the variant's: a key of the variant's extras has
    the variant's value, any other key of the definition's extras keeps the
    definition's value, and there are no other keys. *)
Theorem extras_overridden_by_variant (p : BasePlugin.t) :
  let definition_extras := PluginDefinition.extras (BasePlugin._plugin_def p) in
  let variant_extras := Variant.extras (BasePlugin._variant p) in
  Dict.wf definition_extras -> Dict.wf variant_extras ->
  Dict.wf (BasePlugin.extras p) /\
  (forall k v, Dict.get k variant_extras = Some v ->
               Dict.get k (BasePlugin.extras p) = Some v) /\
  (forall k, Dict.get k variant_extras = None ->
             Dict.get k (BasePlugin.extras p) = Dict.get k definition_extras) /\
  (forall k, In k (Dict.keys (BasePlugin.extras p)) <->
             In k (Dict.keys definition_extras) \/
             In k (Dict.keys variant_extras)).
Proof.
  intros definition_extras variant_extras Hd Hv.
  assert (Hget : forall k,
             Dict.get k (BasePlugin.extras p) =
             match Dict.get k variant_extras with
             | Some v => Some v
             | None => Dict.get k definition_extras
             end).
  { intros k. unfold BasePlugin.extras, Dict.merge.
    fold definition_extras variant_extras.
    now rewrite get_update, of_items_wf. }
  split; [apply wf_merge|]. split; [|split].
  - intros k v H. now rewrite Hget, H.
  - intros k H. now rewrite Hget, H.
  - intros k. rewrite !in_keys, Hget.
    destruct (Dict.get k variant_extras), (Dict.get k definition_extras);
      split; intros H; try discriminate;
      try (left; discriminate); try (right; discriminate); tauto.
Qed.

Lemma extras_overridden_by_variant_witness :
  Dict.get "select" (BasePlugin.extras Sample.plugin) =
    Some (VList [VStr "users.*"]) /\
  Dict.get "metadata" (BasePlugin.extras Sample.plugin) =
    Some (VDict [("commits", VDict [("selected", VBool true)])]).
Proof.
  assert (Hd : Dict.wf (PluginDefinition.extras
                          (BasePlugin._plugin_def Sample.plugin))).
  { repeat constructor; simpl; intuition discriminate. }
  assert (Hv : Dict.wf (Variant.extras (BasePlugin._variant Sample.plugin))).
  { repeat constructor; simpl; intuition discriminate. }
  destruct (extras_overridden_by_variant Sample.plugin Hd Hv)
    as (_ & Hvariant & Hdefinition & _).
  split.
  - apply Hvariant. reflexivity.
  - rewrite Hdefinition; reflexivity.
Defined.

Lemma get_prefixed (k : string) (d : dict) :
  Dict.get ("_" +++ k) (List.map (fun kv => ("_" +++ fst kv, snd kv)) d) =
  Dict.get k d.
Proof.
  induction d as [|[k0 v0] d IH]; simpl; [reflexivity|].
  destruct (String.eqb k0 k); [reflexivity | exact IH].
Qed.

Lemma wf_prefixed (d : dict) :
  Dict.wf d -> Dict.wf (List.map (fun kv => ("_" +++ fst kv, snd kv)) d).
Proof.
  unfold Dict.wf, Dict.keys. rewrite map_map. simpl.
  rewrite <- (map_map fst (fun k => String "_" k)).
  apply Injective_map_NoDup. intros a b [= H]. exact H.
Qed.

Lemma bound_name (defaults : dict) (s : SettingDefinition.t) :
  SettingDefinition.name (BasePlugin.bound defaults s) =
  SettingDefinition.name s.
Proof.
  unfold BasePlugin.bound.
  now destruct (negb (is_none _)).
Qed.

(** C9 (amended): [extra_settings] starts from the merged extras with every
    key prefixed by an underscore.  Every declared extra setting is in the
    result, in declaration order, with the default found under its name
    bound as its value when that default is not [None], and unchanged
    otherwise, also when the default exists and is [None]; the settings that
    [from_missing] synthesizes from these and the prefixed defaults come
    after all the declared ones.  With [from_missing] as the spec describes
    it, the synthesized settings are those of the keys of the flattened
    defaults that no declared setting is named after. *)
Theorem extra_settings_layout (EXTRA_SETTINGS : list SettingDefinition.t)
    (p : BasePlugin.t) :
  let defaults :=
    List.map (fun kv => ("_" +++ fst kv, snd kv)) (BasePlugin.extras p) in
  let declared :=
    List.map (fun s =>
                match Dict.get (SettingDefinition.name s) defaults with
                | Some VNone | None => s
                | Some v => SettingDefinition.with_value v s
                end) EXTRA_SETTINGS in
  let marks := [("custom", VBool false); ("default", VBool true)] in
  BasePlugin.defaults p = defaults /\
  (forall k, Dict.get ("_" +++ k) defaults = Dict.get k (BasePlugin.extras p)) /\
  List.map SettingDefinition.name declared =
    List.map SettingDefinition.name EXTRA_SETTINGS /\
  (forall from_missing,
      BasePlugin.extra_settings EXTRA_SETTINGS from_missing p =
      declared ++ from_missing declared defaults marks) /\
  (forall s : SettingDefinition.t,
      In s (SettingDefinition.from_missing declared defaults marks) <->
      In (SettingDefinition.name s, SettingDefinition.value s)
         (SettingDefinition.flatten defaults) /\
      ~ In (SettingDefinition.name s)
           (List.map SettingDefinition.name EXTRA_SETTINGS) /\
      SettingDefinition.attrs s = marks).
Proof.
  intros defaults declared marks.
  assert (Hdefaults : BasePlugin.defaults p = defaults).
  { unfold BasePlugin.defaults. apply of_items_wf, wf_prefixed, wf_merge. }
  assert (Hdeclared :
            List.map (BasePlugin.bound defaults) EXTRA_SETTINGS = declared).
  { apply map_ext. intros s. unfold BasePlugin.bound, Dict.get_default.
    destruct (Dict.get (SettingDefinition.name s) defaults) as [[]|];
      reflexivity. }
  assert (Hnames : List.map SettingDefinition.name declared =
                   List.map SettingDefinition.name EXTRA_SETTINGS).
  { rewrite <- Hdeclared, map_map. apply map_ext. intros s.
    apply bound_name. }
  split; [exact Hdefaults|]. split; [intros k; apply get_prefixed|].
  split; [exact Hnames|]. split.
  - intros from_missing. unfold BasePlugin.extra_settings.
    rewrite Hdefaults, Hdeclared. reflexivity.
  - intros s. unfold SettingDefinition.from_missing, Dict.filter_keys.
    rewrite Hnames, in_map_iff. split.
    + intros ([k v] & <- & Hin). apply filter_In in Hin. simpl in *.
      destruct Hin as [Hin Hk]. apply negb_true_iff, among_not_in in Hk.
      now repeat split.
    + intros (Hin & Hk & Hattrs).
      exists (SettingDefinition.name s, SettingDefinition.value s).
      split.
      * destruct s as [n v a]. simpl in *. now subst a.
      * apply filter_In. split; [exact Hin|]. simpl.
        now apply negb_true_iff, among_not_in.
Qed.

(** The extra settings of [Sample.plugin] for the settings an extractor
    declares: [_select] takes the default of the variant, [_schema] keeps its
    own value since the default is null, and the nested default object is
    flattened into one synthesized setting. *)
Example extra_settings_sample :
  BasePlugin.extra_settings Sample.extractor_settings
    SettingDefinition.from_missing Sample.plugin =
  [{| SettingDefinition.name := "_catalog";
      SettingDefinition.value := VNone; SettingDefinition.attrs := [] |};
   {| SettingDefinition.name := "_select";
      SettingDefinition.value := VList [VStr "users.*"];
      SettingDefinition.attrs := [] |};
   {| SettingDefinition.name := "_schema";
      SettingDefinition.value := VStr "public";
      SettingDefinition.attrs := [] |};
   {| SettingDefinition.name := "_metadata.commits.selected";
      SettingDefinition.value := VBool true;
      SettingDefinition.attrs :=
        [("custom", VBool false); ("default", VBool true)] |}].
Proof. reflexivity. Qed.

(** C9, the claim as stated fails: a default that exists is not bound when
    it is [None].  The variant of [Sample.plugin] binds the extra [schema]
    to [None], so the prefixed defaults have the key [_schema]; the declared
    setting [_schema] is in the result with its own value "public", not
    with the default, whatever [from_missing] adds after it. *)
Lemma null_default_is_not_bound :
  In "_schema" (Dict.keys (BasePlugin.defaults Sample.plugin)) /\
  Dict.get "_schema" (BasePlugin.defaults Sample.plugin) = Some VNone /\
  nth_error Sample.extractor_settings 2 =
    Some {| SettingDefinition.name := "_schema";
            SettingDefinition.value := VStr "public";
            SettingDefinition.attrs := [] |} /\
  (forall from_missing,
      nth_error
        (BasePlugin.extra_settings Sample.extractor_settings from_missing
           Sample.plugin) 2 =
      Some {| SettingDefinition.name := "_schema";
              SettingDefinition.value := VStr "public";
              SettingDefinition.attrs := [] |}).
Proof.
  split; [simpl; tauto|]. repeat split.
Qed.

(** ** Construction from flat fields *)

Lemma as_extras_ok (kw : kwargs) (d : dict) :
  as_extras kw = Ok d -> of_extras d = kw.
Proof.
  unfold as_extras, of_extras. revert d.
  induction kw as [|[k [v|l]] kw IH]; simpl; intros d H.
  - injection H as <-. reflexivity.
  - bind_ok H. injection H as <-. simpl. now rewrite (IH _ eq_refl).
  - discriminate.
Qed.

Lemma as_extras_of_extras (d : dict) : as_extras (of_extras d) = Ok d.
Proof.
  unfold as_extras, of_extras.
  induction d as [|[k v] d IH]; simpl; [reflexivity|].
  now rewrite IH.
Qed.

Lemma keys_of_extras (d : dict) : Dict.keys (of_extras d) = Dict.keys d.
Proof. unfold Dict.keys, of_extras. rewrite map_map. reflexivity. Qed.

Lemma of_extras_filter_keys (p : string -> bool) (d : dict) :
  of_extras (Dict.filter_keys p d) = Dict.filter_keys p (of_extras d).
Proof.
  unfold of_extras, Dict.filter_keys.
  induction d as [|[k v] d IH]; simpl; [reflexivity|].
  destruct (p k); simpl; now rewrite IH.
Qed.

Section FilterKeys.

Context {A : Type}.
Implicit Types (d : list (string * A)) (p q : string -> bool).

Lemma filter_keys_twice p q d :
  Dict.filter_keys p (Dict.filter_keys q d) =
  Dict.filter_keys (fun k => q k && p k) d.
Proof.
  unfold Dict.filter_keys.
  induction d as [|[k v] d IH]; simpl; [reflexivity|].
  destruct (q k); simpl; [destruct (p k)|]; now rewrite IH.
Qed.

Lemma filter_keys_ext p q d :
  (forall k, p k = q k) -> Dict.filter_keys p d = Dict.filter_keys q d.
Proof. intros H. apply filter_ext. intros [k v]. apply H. Qed.

Lemma keys_filter_keys p d :
  Dict.keys (Dict.filter_keys p d) = filter p (Dict.keys d).
Proof.
  unfold Dict.keys, Dict.filter_keys.
  induction d as [|[k v] d IH]; simpl; [reflexivity|].
  destruct (p k); simpl; now rewrite IH.
Qed.

Lemma wf_filter_keys p d : Dict.wf d -> Dict.wf (Dict.filter_keys p d).
Proof.
  unfold Dict.wf. rewrite keys_filter_keys. apply NoDup_filter.
Qed.

Lemma filter_keys_all p d :
  (forall k, In k (Dict.keys d) -> p k = true) -> Dict.filter_keys p d = d.
Proof.
  intros H. apply forallb_filter_id, forallb_forall.
  intros [k v] Hin. apply H. change k with (fst (k, v)). now apply in_map.
Qed.

End FilterKeys.

(** Popping the four presentation keys off a dictionary. *)
Lemma presentation_attrs_popped (e : dict) :
  Dict.wf e ->
  Dict.remove "description"
    (Dict.remove "logo_url" (Dict.remove "label" (Dict.remove "hidden" e))) =
  Dict.filter_keys
    (fun k => negb (among PluginDefinition.PRESENTATION_ATTRS k)) e.
Proof.
  intros H.
  rewrite (remove_wf "hidden" e) by exact H.
  rewrite (remove_wf "label") by now apply wf_filter_keys.
  rewrite (remove_wf "logo_url") by now repeat apply wf_filter_keys.
  rewrite (remove_wf "description") by now repeat apply wf_filter_keys.
  rewrite !filter_keys_twice. apply filter_keys_ext. intros k.
  unfold among, PluginDefinition.PRESENTATION_ATTRS. simpl.
  rewrite !(String.eqb_sym k).
  destruct (String.eqb "hidden" k), (String.eqb "label" k),
    (String.eqb "logo_url" k), (String.eqb "description" k); reflexivity.
Qed.

(** What [Variant( **kw)] returns: its extras are the keywords that are not
    parameters, its name the keyword [name]. *)
Lemma variant_init_ok (kw : kwargs) (v : Variant.t) :
  Variant.__init__ kw = Ok v ->
  of_extras (Variant.extras v) =
    Dict.filter_keys (fun k => negb (among Variant.PARAMS k)) kw /\
  as_opt_str (Dict.get "name" kw) = Ok (Variant.name v) /\
  as_opt_bool (Dict.get "original" kw) = Ok (Variant.original v) /\
  as_opt_bool (Dict.get "deprecated" kw) = Ok (Variant.deprecated v) /\
  as_opt_str (Dict.get "docs" kw) = Ok (Variant.docs v) /\
  as_opt_str (Dict.get "repo" kw) = Ok (Variant.repo v) /\
  as_opt_str (Dict.get "pip_url" kw) = Ok (Variant.pip_url v) /\
  as_opt_str (Dict.get "executable" kw) = Ok (Variant.executable v) /\
  as_list (Dict.get "capabilities" kw) = Ok (Variant.capabilities v) /\
  as_list (Dict.get "settings_group_validation" kw) =
    Ok (Variant.settings_group_validation v) /\
  as_settings (Dict.get "settings" kw) = Ok (Variant.settings v).
Proof.
  unfold Variant.__init__. intros H.
  destruct (Dict.mem "self" kw); [discriminate|].
  repeat bind_ok H. injection H as <-. simpl.
  split; [now apply as_extras_ok|]. repeat split; reflexivity.
Qed.

Lemma get_of_extras (k : string) (d : dict) :
  Dict.get k (of_extras d) = option_map AVal (Dict.get k d).
Proof.
  unfold of_extras.
  induction d as [|[k0 v0] d IH]; simpl; [reflexivity|].
  destruct (String.eqb k0 k); [reflexivity | exact IH].
Qed.

(** An extra keyword of [Variant( **kw)] is held by the variant's extras. *)
Lemma variant_extra_kept (kw : kwargs) (v : Variant.t) (k : string) :
  Variant.__init__ kw = Ok v ->
  among Variant.PARAMS k = false ->
  option_map AVal (Dict.get k (Variant.extras v)) = Dict.get k kw.
Proof.
  intros H Hk. apply variant_init_ok in H. destruct H as [H _].
  rewrite <- get_of_extras, H, get_filter_keys, Hk. reflexivity.
Qed.

(** The definition that [__init__] builds from flat fields. *)
Lemma flat_init (plugin_type : PluginType.t) (name namespace : string)
    (variant : option string) (extras : kwargs) (v : Variant.t) :
  Dict.wf extras ->
  Variant.__init__positional variant extras = Ok v ->
  PluginDefinition.__init__ plugin_type name namespace variant [] extras =
  Ok {| PluginDefinition.type := plugin_type;
        PluginDefinition.name := name;
        PluginDefinition.namespace := namespace;
        PluginDefinition.hidden := PluginDefinition.popped "hidden" extras;
        PluginDefinition.label := PluginDefinition.popped "label" extras;
        PluginDefinition.logo_url :=
          PluginDefinition.popped "logo_url" extras;
        PluginDefinition.description :=
          PluginDefinition.popped "description" extras;
        PluginDefinition.extras :=
          Dict.filter_keys
            (fun k => negb (among PluginDefinition.PRESENTATION_ATTRS k))
            (Variant.extras v);
        PluginDefinition.variants := [Variant.set_extras [] v] |}.
Proof.
  intros Hwf Hv.
  unfold PluginDefinition.__init__. rewrite Hv. simpl.
  unfold Variant.__init__positional in Hv.
  destruct (Dict.mem "name" extras) eqn:Hname; [discriminate|].
  pose proof (variant_init_ok _ _ Hv) as (Hextras & _).
  simpl in Hextras.
  assert (Hplain : Dict.wf (Variant.extras v)).
  { unfold Dict.wf. rewrite <- keys_of_extras, Hextras.
    now apply wf_filter_keys. }
  assert (Hpop : forall k,
             among Variant.PARAMS k = false ->
             Dict.get_default k VNone (Variant.extras v) =
             PluginDefinition.popped k extras).
  { intros k Hk. unfold Dict.get_default, PluginDefinition.popped.
    pose proof (variant_extra_kept _ _ k Hv Hk) as Hkept.
    rewrite get_cons in Hkept.
    destruct (String.eqb "name" k) eqn:E.
    - apply String.eqb_eq in E. subst k. discriminate.
    - rewrite <- Hkept. now destruct (Dict.get k (Variant.extras v)). }
  unfold PluginDefinition.finish. simpl.
  rewrite presentation_attrs_popped by exact Hplain.
  unfold Dict.get_default. rewrite !get_remove by discriminate.
  fold (Dict.get_default "hidden" VNone (Variant.extras v)).
  fold (Dict.get_default "label" VNone (Variant.extras v)).
  fold (Dict.get_default "logo_url" VNone (Variant.extras v)).
  fold (Dict.get_default "description" VNone (Variant.extras v)).
  rewrite !Hpop by reflexivity. reflexivity.
Qed.

(** C2 (amended): constructing a definition with an empty [variants] list
    and flat fields builds exactly one variant from those fields (so the
    variant takes the [variant] keyword as its name, [pip_url] as its
    [pip_url], ...); every other keyword that is not one of the four
    presentation attributes ([hidden], [label], [logo_url], [description])
    goes to the extras of the definition, in order, and the extras of the
    variant end up empty.  The presentation attributes are taken out of the
    extras and stored as attributes of the definition. *)
Theorem init_from_flat_fields (plugin_type : PluginType.t)
    (name namespace : string) (variant : option string) (extras : kwargs)
    (v : Variant.t) :
  Dict.wf extras ->
  Variant.__init__positional variant extras = Ok v ->
  exists d : PluginDefinition.t,
    PluginDefinition.__init__ plugin_type name namespace variant [] extras =
      Ok d /\
    PluginDefinition.variants d = [Variant.set_extras [] v] /\
    Variant.name v = variant /\
    as_opt_str (Dict.get "pip_url" extras) = Ok (Variant.pip_url v) /\
    as_opt_str (Dict.get "executable" extras) = Ok (Variant.executable v) /\
    as_list (Dict.get "capabilities" extras) = Ok (Variant.capabilities v) /\
    as_settings (Dict.get "settings" extras) = Ok (Variant.settings v) /\
    (forall v', In v' (PluginDefinition.variants d) -> Variant.extras v' = []) /\
    of_extras (PluginDefinition.extras d) =
      Dict.filter_keys
        (fun k => negb (among Variant.PARAMS k)
                  && negb (among PluginDefinition.PRESENTATION_ATTRS k))
        extras /\
    (forall k,
        among Variant.PARAMS k = false ->
        among PluginDefinition.PRESENTATION_ATTRS k = false ->
        option_map AVal (Dict.get k (PluginDefinition.extras d)) =
          Dict.get k extras) /\
    PluginDefinition.hidden d = PluginDefinition.popped "hidden" extras /\
    PluginDefinition.label d = PluginDefinition.popped "label" extras /\
    PluginDefinition.logo_url d = PluginDefinition.popped "logo_url" extras /\
    PluginDefinition.description d =
      PluginDefinition.popped "description" extras.
Proof.
  intros Hwf Hv.
  eexists. split; [exact (flat_init _ _ _ _ _ v Hwf Hv)|]. simpl.
  unfold Variant.__init__positional in Hv.
  destruct (Dict.mem "name" extras) eqn:Hname; [discriminate|].
  pose proof (variant_init_ok _ _ Hv) as
    (Hextras & Hn & _ & _ & _ & _ & Hpip & Hexe & Hcap & _ & Hset).
  simpl in Hextras, Hn, Hpip, Hexe, Hcap, Hset.
  split; [reflexivity|]. split.
  { destruct variant; simpl in Hn; congruence. }
  do 4 (split; [assumption|]).
  split. { intros v' [<-|[]]. reflexivity. }
  assert (Hd : of_extras
                 (Dict.filter_keys
                    (fun k => negb (among PluginDefinition.PRESENTATION_ATTRS k))
                    (Variant.extras v)) =
               Dict.filter_keys
                 (fun k => negb (among Variant.PARAMS k)
                           && negb (among PluginDefinition.PRESENTATION_ATTRS k))
                 extras).
  { now rewrite of_extras_filter_keys, Hextras, filter_keys_twice. }
  split; [exact Hd|]. split; [|repeat split].
  intros k Hk Hp. rewrite <- get_of_extras, Hd, get_filter_keys.
  cbv beta. rewrite Hk, Hp. reflexivity.
Qed.

Lemma init_from_flat_fields_witness :
  exists d : PluginDefinition.t,
    PluginDefinition.__init__ PluginType.EXTRACTORS "tap-gitlab" "tap_gitlab"
      (Some "v1") [] Sample.flat_fields = Ok d /\
    List.map Variant.name (PluginDefinition.variants d) = [Some "v1"] /\
    List.map Variant.pip_url (PluginDefinition.variants d) = [Some "x"] /\
    List.map Variant.extras (PluginDefinition.variants d) = [[]] /\
    PluginDefinition.extras d = [("foo", VStr "bar")].
Proof.
  assert (Hwf : Dict.wf Sample.flat_fields).
  { repeat constructor; simpl; intuition discriminate. }
  destruct (init_from_flat_fields PluginType.EXTRACTORS "tap-gitlab"
              "tap_gitlab" (Some "v1") Sample.flat_fields _ Hwf eq_refl)
    as (d & Hd & Hvariants & _).
  exists d. split; [exact Hd|].
  injection Hd as <-. repeat split.
Defined.

(** C2, the claim as stated fails: [label] is a constructor keyword that is
    not a field of [Variant], and it is not promoted to the extras of the
    definition; it becomes the definition's label. *)
Lemma label_is_not_an_extra :
  among Variant.PARAMS "label" = false /\
  exists d : PluginDefinition.t,
    PluginDefinition.__init__ PluginType.EXTRACTORS "tap-gitlab" "tap_gitlab"
      (Some "v1") [] Sample.labelled_fields = Ok d /\
    Dict.get "label" (PluginDefinition.extras d) = None /\
    PluginDefinition.extras d = [("foo", VStr "bar")] /\
    PluginDefinition.label d = VStr "GitLab".
Proof.
  split; [reflexivity|]. eexists. split; [reflexivity|]. repeat split.
Qed.

(** ** Iteration over a definition *)

Lemma bind_Ok {E A B} (r : result E A) (k : A -> result E B) (a : A) :
  r = Ok a -> bind r k = k a.
Proof. now intros ->. Qed.

Lemma mapM_app {E A B} (f : A -> result E B) (l1 l2 : list A)
    (r1 r2 : list B) :
  mapM f l1 = Ok r1 -> mapM f l2 = Ok r2 -> mapM f (l1 ++ l2) = Ok (r1 ++ r2).
Proof.
  revert r1. induction l1 as [|x l1 IH]; simpl; intros r1 H1 H2.
  - injection H1 as <-. exact H2.
  - destruct (f x) as [y|]; simpl in *; [|discriminate].
    destruct (mapM f l1) as [ys|]; simpl in *; [|discriminate].
    injection H1 as <-. now rewrite (IH ys eq_refl H2).
Qed.

Lemma mapM_pure {E A B} (f : A -> result E B) (g : A -> B) (l : list A) :
  (forall x, In x l -> f x = Ok (g x)) -> mapM f l = Ok (List.map g l).
Proof.
  induction l as [|x l IH]; simpl; intros H; [reflexivity|].
  rewrite (H x) by now left. simpl.
  rewrite IH by (intros y Hy; apply H; now right). reflexivity.
Qed.

Lemma concat_singletons {A} (l : list A) :
  concat (List.map (fun x => [x]) l) = l.
Proof. induction l as [|x l IH]; simpl; [reflexivity | now rewrite IH]. Qed.

Lemma keys_app {A} (d1 d2 : list (string * A)) :
  Dict.keys (d1 ++ d2) = Dict.keys d1 ++ Dict.keys d2.
Proof. apply map_app. Qed.

Lemma keys_item_of {A} (k : string) (v : val) (f : val -> A) :
  Dict.keys (item_of k v f) = if is_none v then [] else [k].
Proof. unfold item_of. now destruct (is_none v). Qed.

Lemma in_keys_item_of {A} (k k' : string) (v : val) (f : val -> A) :
  In k (Dict.keys (item_of k' v f)) -> k' = k.
Proof.
  rewrite keys_item_of. destruct (is_none v); simpl; tauto.
Qed.

Lemma keys_lifted {A} (f : val -> A) (d : dict) :
  Dict.keys (List.map (fun kv => (fst kv, f (snd kv))) d) = Dict.keys d.
Proof. unfold Dict.keys. rewrite map_map. reflexivity. Qed.

(** The own items of a definition bind [variants] only if its extras do. *)
Lemma variants_in_own_items (d : PluginDefinition.t) :
  In "variants" (Dict.keys (PluginDefinition.own_items d)) ->
  In "variants" (Dict.keys (PluginDefinition.extras d)).
Proof.
  unfold PluginDefinition.own_items.
  rewrite !keys_app, keys_lifted, !in_app_iff.
  intros [H|[H|[H|[H|[H|H]]]]]; try exact H;
    try (apply in_keys_item_of in H; discriminate).
  simpl in H. intuition discriminate.
Qed.

Lemma iter_own_items (d : PluginDefinition.t) :
  ~ In "variants" (Dict.keys (PluginDefinition.extras d)) ->
  mapM PluginDefinition.iter_item (PluginDefinition.own_items d) =
  Ok (List.map (fun kv => [kv]) (PluginDefinition.own_items d)).
Proof.
  intros H. apply mapM_pure. intros [k f] Hin.
  unfold PluginDefinition.iter_item.
  destruct (String.eqb k "variants") eqn:E; [|reflexivity].
  apply String.eqb_eq in E. subst k. exfalso. apply H.
  apply variants_in_own_items.
  change "variants" with (fst ("variants", f)). now apply in_map.
Qed.

(** Iterating a definition with one variant lists the items of that variant
    after the definition's own. *)
Lemma iter_single (d : PluginDefinition.t) (v : Variant.t) :
  PluginDefinition.variants d = [v] ->
  ~ In "variants" (Dict.keys (PluginDefinition.extras d)) ->
  PluginDefinition.__iter__ d =
  Ok (PluginDefinition.own_items d ++ PluginDefinition.inlined v).
Proof.
  intros Hv Hextras. unfold PluginDefinition.__iter__, PluginDefinition.items.
  erewrite bind_Ok.
  2:{ apply mapM_app; [now apply iter_own_items|].
      simpl. rewrite Hv. simpl. reflexivity. }
  simpl. rewrite concat_app, concat_singletons. simpl.
  now rewrite app_nil_r.
Qed.

(** Iterating a definition with several variants (or none) lists them under
    [variants]. *)
Lemma iter_nested (d : PluginDefinition.t) :
  List.length (PluginDefinition.variants d) <> 1 ->
  ~ In "variants" (Dict.keys (PluginDefinition.extras d)) ->
  PluginDefinition.__iter__ d =
  Ok (PluginDefinition.own_items d
      ++ [("variants", PluginDefinition.FVariants (PluginDefinition.variants d))]).
Proof.
  intros Hn Hextras. unfold PluginDefinition.__iter__, PluginDefinition.items.
  erewrite bind_Ok.
  2:{ apply mapM_app; [now apply iter_own_items|].
      simpl. apply Nat.eqb_neq in Hn. rewrite Hn. reflexivity. }
  simpl. rewrite concat_app, concat_singletons. reflexivity.
Qed.

(** ** Definitions in flat form *)

Lemma is_none_true (v : val) : is_none v = true -> v = VNone.
Proof. destruct v; simpl; congruence. Qed.

Lemma map_item_of {A B} (g : string * A -> string * B) (k : string)
    (v : val) (f : val -> A) :
  List.map g (item_of k v f) =
  item_of (fst (g (k, f v))) v (fun _ => snd (g (k, f v))).
Proof.
  unfold item_of. destruct (is_none v); simpl; [reflexivity|].
  now destruct (g (k, f v)).
Qed.

Lemma item_of_ext {A} (k : string) (v : val) (f g : val -> A) :
  f v = g v -> item_of k v f = item_of k v g.
Proof. unfold item_of. now intros ->. Qed.

(** The serialized form of a definition in flat form, written out. *)
Lemma flat_entry (d : PluginDefinition.t) (v : Variant.t) :
  Variant.extras v = [] ->
  PluginDefinition.own_items d ++ PluginDefinition.inlined v =
  [("name", PluginDefinition.FVal (VStr (PluginDefinition.name d)));
   ("namespace", PluginDefinition.FVal (VStr (PluginDefinition.namespace d)))]
  ++ List.map (fun ka => (fst ka, PluginDefinition.FArg (snd ka)))
       (of_extras (PluginDefinition.presentation d ++ PluginDefinition.extras d))
  ++ item_of "variant" (of_opt_str (Variant.name v)) PluginDefinition.FVal
  ++ List.map (fun ka => (fst ka, PluginDefinition.FArg (snd ka)))
       (Variant.fields v).
Proof.
  intros Hext.
  unfold PluginDefinition.own_items, PluginDefinition.inlined, Variant.items,
    PluginDefinition.presentation, Variant.fields, of_extras.
  rewrite Hext. simpl List.map at 4. rewrite app_nil_r.
  rewrite !map_app, !map_map, !map_item_of.
  rewrite <- !app_assoc. simpl.
  repeat (f_equal; [apply item_of_ext; reflexivity|]).
  reflexivity.
Qed.

Lemma keys_presentation (d : PluginDefinition.t) (k : string) :
  In k (Dict.keys (PluginDefinition.presentation d)) ->
  In k PluginDefinition.PRESENTATION_ATTRS.
Proof.
  unfold PluginDefinition.presentation.
  rewrite !keys_app, !in_app_iff.
  intros [H|[H|[H|H]]]; apply in_keys_item_of in H; subst k; simpl; tauto.
Qed.

Lemma keys_variant_fields (v : Variant.t) (k : string) :
  In k (Dict.keys (Variant.fields v)) ->
  In k (tl Variant.PARAMS).
Proof.
  unfold Variant.fields.
  rewrite !keys_app, !in_app_iff.
  intros [H|[H|[H|[H|[H|[H|H]]]]]];
    try (apply in_keys_item_of in H; subst k; simpl; tauto).
  simpl in *. tauto.
Qed.

Lemma wf_presentation (d : PluginDefinition.t) :
  Dict.wf (PluginDefinition.presentation d).
Proof.
  unfold Dict.wf, PluginDefinition.presentation.
  rewrite !keys_app, !keys_item_of.
  destruct (is_none _), (is_none _), (is_none _), (is_none _);
    repeat constructor; simpl; intuition discriminate.
Qed.

Lemma wf_variant_fields (v : Variant.t) :
  Dict.wf (Variant.fields v).
Proof.
  unfold Dict.wf, Variant.fields.
  rewrite !keys_app, !keys_item_of.
  destruct (is_none _), (is_none _), (is_none _), (is_none _), (is_none _),
    (is_none _); repeat constructor; simpl; intuition discriminate.
Qed.

Lemma wf_app {A} (d1 d2 : list (string * A)) :
  Dict.wf d1 -> Dict.wf d2 ->
  (forall k, In k (Dict.keys d1) -> ~ In k (Dict.keys d2)) ->
  Dict.wf (d1 ++ d2).
Proof.
  unfold Dict.wf. rewrite keys_app. intros H1 H2 H. now apply NoDup_app.
Qed.

Lemma keys_lifted_arg {A} (f : arg -> A) (kw : kwargs) :
  Dict.keys (List.map (fun ka => (fst ka, f (snd ka))) kw) = Dict.keys kw.
Proof. unfold Dict.keys. rewrite map_map. reflexivity. Qed.

Lemma get_absent {A} (k : string) (d1 d2 : list (string * A)) :
  ~ In k (Dict.keys d1) -> Dict.get k (d1 ++ d2) = Dict.get k d2.
Proof. intros H. apply get_none in H. now rewrite get_app, H. Qed.

Lemma in_among (names : list string) (k : string) :
  In k names -> among names k = true.
Proof. apply among_in. Qed.

(** The literal keys of a flat entry. *)
Lemma reserved_keys (k : string) :
  In k (["name"; "namespace"; "variant"; "variants"; "self"; "plugin_type"]
        ++ PluginDefinition.PRESENTATION_ATTRS ++ tl Variant.PARAMS) ->
  among PluginDefinition.RESERVED k = true.
Proof.
  intros H. apply among_in. simpl in H. simpl.
  repeat (destruct H as [<-|H]; [tauto|]). destruct H.
Qed.

Lemma remove_absent {A} (k : string) (d : list (string * A)) :
  ~ In k (Dict.keys d) -> Dict.remove k d = d.
Proof.
  induction d as [|[k0 v0] d IH]; simpl; intros H; [reflexivity|].
  destruct (String.eqb k0 k) eqn:E.
  - apply String.eqb_eq in E. tauto.
  - rewrite IH by tauto. reflexivity.
Qed.

Lemma filter_keys_none {A} (p : string -> bool) (d : list (string * A)) :
  (forall k, In k (Dict.keys d) -> p k = false) -> Dict.filter_keys p d = [].
Proof.
  induction d as [|[k0 v0] d IH]; simpl; intros H; [reflexivity|].
  rewrite (H k0) by now left. apply IH. intros k Hk. apply H. now right.
Qed.

Lemma filter_keys_app {A} (p : string -> bool) (d1 d2 : list (string * A)) :
  Dict.filter_keys p (d1 ++ d2) =
  Dict.filter_keys p d1 ++ Dict.filter_keys p d2.
Proof. apply filter_app. Qed.

(** The keywords of [variant_fields] give back the fields of the variant. *)
Lemma variant_fields_read (v : Variant.t) :
  let kw := Variant.fields v in
  as_opt_bool (Dict.get "original" kw) = Ok (Variant.original v) /\
  as_opt_bool (Dict.get "deprecated" kw) = Ok (Variant.deprecated v) /\
  as_opt_str (Dict.get "docs" kw) = Ok (Variant.docs v) /\
  as_opt_str (Dict.get "repo" kw) = Ok (Variant.repo v) /\
  as_opt_str (Dict.get "pip_url" kw) = Ok (Variant.pip_url v) /\
  as_opt_str (Dict.get "executable" kw) = Ok (Variant.executable v) /\
  as_list (Dict.get "capabilities" kw) = Ok (Variant.capabilities v) /\
  as_list (Dict.get "settings_group_validation" kw) =
    Ok (Variant.settings_group_validation v) /\
  as_settings (Dict.get "settings" kw) = Ok (Variant.settings v).
Proof.
  destruct v as [n o dp dc r pu ex cap sgv st ext].
  unfold Variant.fields. simpl.
  destruct o as [?|], dp as [?|], dc as [?|], r as [?|], pu as [?|],
    ex as [?|]; repeat split; reflexivity.
Qed.

(** A value that [list(x)] copies is iterable. *)
Lemma iterable_as_list (a : option arg) (l : list val) :
  as_list a = Ok l -> iterable a = Ok tt.
Proof.
  destruct a as [[x|?]|]; simpl; try reflexivity. now intros ->.
Qed.

(** [Variant( **kw)] when every parameter can be read off [kw]. *)
Lemma variant_init_reads (kw : kwargs) (v : Variant.t) (extras : dict) :
  Dict.mem "self" kw = false ->
  as_opt_str (Dict.get "name" kw) = Ok (Variant.name v) ->
  as_opt_bool (Dict.get "original" kw) = Ok (Variant.original v) ->
  as_opt_bool (Dict.get "deprecated" kw) = Ok (Variant.deprecated v) ->
  as_opt_str (Dict.get "docs" kw) = Ok (Variant.docs v) ->
  as_opt_str (Dict.get "repo" kw) = Ok (Variant.repo v) ->
  as_opt_str (Dict.get "pip_url" kw) = Ok (Variant.pip_url v) ->
  as_opt_str (Dict.get "executable" kw) = Ok (Variant.executable v) ->
  as_list (Dict.get "capabilities" kw) = Ok (Variant.capabilities v) ->
  as_list (Dict.get "settings_group_validation" kw) =
    Ok (Variant.settings_group_validation v) ->
  as_settings (Dict.get "settings" kw) = Ok (Variant.settings v) ->
  as_extras (Dict.filter_keys (fun k => negb (among Variant.PARAMS k)) kw) =
    Ok extras ->
  Variant.__init__ kw = Ok (Variant.set_extras extras v).
Proof.
  intros H0 H1 H2 H3 H4 H5 H6 H7 H8 H9 H10 H11. unfold Variant.__init__.
  rewrite H0, (iterable_as_list _ _ H8), (iterable_as_list _ _ H9).
  cbv beta iota delta [bind].
  rewrite H1, H2, H3, H4, H5, H6, H7, H8, H9, H10, H11. reflexivity.
Qed.

Lemma mapM_lifted (kw : kwargs) :
  mapM (fun kf : string * PluginDefinition.field =>
          a <- PluginDefinition.as_arg (Some (snd kf)) ;;
          match a with
          | Some a => Ok (fst kf, a)
          | None => Err IllTyped
          end)
    (List.map (fun ka => (fst ka, PluginDefinition.FArg (snd ka))) kw) =
  Ok kw.
Proof.
  rewrite (mapM_pure _
             (fun kf => (fst kf,
                         match snd kf with
                         | PluginDefinition.FArg a => a
                         | PluginDefinition.FVariants _ => AVal VNone
                         end))).
  - rewrite map_map. simpl. rewrite <- (map_id kw) at 2.
    f_equal. apply map_ext. now intros [k a].
  - intros kf Hin. apply in_map_iff in Hin.
    destruct Hin as ([k a] & <- & _). reflexivity.
Qed.

Section FlatForm.

Variable d : PluginDefinition.t.
Variable v : Variant.t.
Hypothesis Hwf : Dict.wf (PluginDefinition.extras d).
Hypothesis Hfree :
  forall k, In k (Dict.keys (PluginDefinition.extras d)) ->
            among PluginDefinition.RESERVED k = false.
Hypothesis Hext : Variant.extras v = [].

Local Abbreviation plain :=
  (PluginDefinition.presentation d ++ PluginDefinition.extras d).
Local Abbreviation entry :=
  (PluginDefinition.own_items d ++ PluginDefinition.inlined v).

Lemma not_an_extra (k : string) :
  among PluginDefinition.RESERVED k = true ->
  ~ In k (Dict.keys (PluginDefinition.extras d)).
Proof. intros H Hin. apply Hfree in Hin. congruence. Qed.

Lemma keys_plain (k : string) :
  In k (Dict.keys plain) ->
  In k PluginDefinition.PRESENTATION_ATTRS \/
  In k (Dict.keys (PluginDefinition.extras d)).
Proof.
  rewrite keys_app, in_app_iff.
  intros [H|H]; [left; now apply (keys_presentation d) | now right].
Qed.

Lemma wf_plain : Dict.wf plain.
Proof.
  apply wf_app; [apply wf_presentation | exact Hwf |].
  intros k Hk. apply not_an_extra, reserved_keys.
  apply keys_presentation in Hk. simpl in *. tauto.
Qed.

(** A key that is neither a presentation attribute nor an extra is not
    bound by [plain]. *)
Lemma plain_free (k : string) :
  among PluginDefinition.PRESENTATION_ATTRS k = false ->
  among PluginDefinition.RESERVED k = true ->
  ~ In k (Dict.keys plain).
Proof.
  intros Hp Hr Hin. apply keys_plain in Hin. destruct Hin as [Hin|Hin].
  - apply in_among in Hin. congruence.
  - now apply not_an_extra in Hin.
Qed.

Lemma keys_entry :
  Dict.keys entry =
  ["name"; "namespace"] ++ Dict.keys plain
  ++ Dict.keys (item_of "variant" (of_opt_str (Variant.name v)) PluginDefinition.FVal)
  ++ Dict.keys (Variant.fields v).
Proof.
  rewrite (flat_entry d v Hext).
  rewrite !keys_app, !keys_lifted_arg, keys_of_extras, !keys_app.
  reflexivity.
Qed.

Lemma in_keys_entry (k : string) :
  In k (Dict.keys entry) ->
  In k (["name"; "namespace"; "variant"] ++ PluginDefinition.PRESENTATION_ATTRS
        ++ tl Variant.PARAMS) \/
  In k (Dict.keys (PluginDefinition.extras d)).
Proof.
  rewrite keys_entry, !in_app_iff.
  intros [H|[H|[H|H]]].
  - left. simpl in *. tauto.
  - apply keys_plain in H. destruct H as [H|H]; [left|now right].
    simpl in *. tauto.
  - apply in_keys_item_of in H. subst k. left. simpl. tauto.
  - apply keys_variant_fields in H. left. simpl in *. tauto.
Qed.

Lemma wf_entry : Dict.wf entry.
Proof.
  unfold Dict.wf. rewrite keys_entry.
  apply NoDup_app; [repeat constructor; simpl; intuition discriminate | |].
  - apply NoDup_app; [apply wf_plain | |].
    + apply NoDup_app; [| apply wf_variant_fields |].
      * rewrite keys_item_of. destruct (is_none _); repeat constructor.
        simpl. tauto.
      * intros k Hk Hv. apply in_keys_item_of in Hk. subst k.
        apply keys_variant_fields in Hv. simpl in Hv.
        intuition discriminate.
    + intros k Hk Hin. apply in_app_iff in Hin.
      assert (Hr : In k ("variant" :: tl Variant.PARAMS)).
      { destruct Hin as [Hin|Hin].
        - apply in_keys_item_of in Hin. subst k. now left.
        - right. now apply keys_variant_fields in Hin. }
      apply keys_plain in Hk. destruct Hk as [Hk|Hk].
      * simpl in Hk, Hr. intuition (subst; discriminate).
      * apply not_an_extra in Hk; [exact Hk|].
        apply reserved_keys. simpl in *. tauto.
  - intros k Hk Hin. rewrite !in_app_iff in Hin.
    destruct Hin as [Hin|[Hin|Hin]].
    + apply keys_plain in Hin. destruct Hin as [Hin|Hin].
      * simpl in Hk, Hin. intuition (subst; discriminate).
      * apply not_an_extra in Hin; [exact Hin|].
        apply reserved_keys. simpl in *. tauto.
    + apply in_keys_item_of in Hin. subst k. simpl in Hk.
      intuition discriminate.
    + apply keys_variant_fields in Hin. simpl in Hk, Hin.
      intuition (subst; discriminate).
Qed.

Lemma entry_unbound (k : string) :
  among (["name"; "namespace"; "variant"]
         ++ PluginDefinition.PRESENTATION_ATTRS ++ tl Variant.PARAMS) k
    = false ->
  among PluginDefinition.RESERVED k = true ->
  Dict.get k entry = None.
Proof.
  intros Hk Hr. apply get_none. intros Hin.
  apply in_keys_entry in Hin. destruct Hin as [Hin|Hin].
  - apply in_among in Hin. congruence.
  - now apply not_an_extra in Hin.
Qed.

Lemma entry_variant :
  (a <- PluginDefinition.as_arg (Dict.get "variant" entry) ;; as_opt_str a) =
  Ok (Variant.name v).
Proof.
  rewrite (flat_entry d v Hext).
  change (Dict.get "variant" ([?a; ?b] ++ ?l)) with (Dict.get "variant" l).
  rewrite get_absent.
  2:{ rewrite keys_lifted_arg, keys_of_extras.
      apply plain_free; reflexivity. }
  rewrite get_app. unfold item_of.
  destruct (Variant.name v) as [n|]; simpl; [reflexivity|].
  replace (Dict.get "variant" _) with (@None PluginDefinition.field);
    [reflexivity|].
  symmetry. apply get_none. rewrite keys_lifted_arg. intros Hin.
  apply keys_variant_fields in Hin. simpl in Hin. intuition discriminate.
Qed.

Lemma entry_extras :
  Dict.filter_keys (fun k => negb (among PluginDefinition.PARAMS k)) entry =
  List.map (fun ka => (fst ka, PluginDefinition.FArg (snd ka)))
    (PluginDefinition.flat_extras d v).
Proof.
  unfold PluginDefinition.flat_extras.
  rewrite (flat_entry d v Hext), map_app, !filter_keys_app.
  rewrite (filter_keys_none _ (item_of _ _ _)).
  2:{ intros k Hk. apply in_keys_item_of in Hk. now subst k. }
  rewrite (filter_keys_none _ [_; _]).
  2:{ intros k [<-|[<-|[]]]; reflexivity. }
  rewrite !filter_keys_all; [reflexivity | |].
  - intros k Hk. rewrite keys_lifted_arg in Hk.
    apply keys_variant_fields in Hk. simpl in Hk.
    repeat (destruct Hk as [<-|Hk]; [reflexivity|]). destruct Hk.
  - intros k Hk. rewrite keys_lifted_arg, keys_of_extras in Hk.
    apply negb_true_iff, among_not_in. intros Hp.
    apply keys_plain in Hk. destruct Hk as [Hk|Hk].
    + simpl in Hk, Hp. intuition (subst; discriminate).
    + apply not_an_extra in Hk; [exact Hk|].
      apply among_in. unfold PluginDefinition.RESERVED.
      apply in_or_app. now left.
Qed.

Lemma read_field (k : string) (x : arg) :
  In k (tl Variant.PARAMS) ->
  Dict.get k (("name", x) :: PluginDefinition.flat_extras d v) =
  Dict.get k (Variant.fields v).
Proof.
  intros Hk. rewrite get_cons.
  replace (String.eqb "name" k) with false.
  2:{ simpl in Hk. repeat (destruct Hk as [<-|Hk]; [reflexivity|]).
      destruct Hk. }
  unfold PluginDefinition.flat_extras. apply get_absent.
  rewrite keys_of_extras. apply plain_free.
  - simpl in Hk. repeat (destruct Hk as [<-|Hk]; [reflexivity|]).
    destruct Hk.
  - apply reserved_keys. simpl in *. tauto.
Qed.

Lemma flat_variant :
  Variant.__init__positional (Variant.name v)
    (PluginDefinition.flat_extras d v) =
  Ok (Variant.set_extras plain v).
Proof.
  unfold Variant.__init__positional.
  replace (Dict.mem "name" (PluginDefinition.flat_extras d v)) with false.
  2:{ unfold Dict.mem, PluginDefinition.flat_extras.
      rewrite get_absent.
      - replace (Dict.get "name" (Variant.fields v))
          with (@None arg); [reflexivity|].
        symmetry. apply get_none. intros Hin.
        apply keys_variant_fields in Hin. simpl in Hin.
        intuition discriminate.
      - rewrite keys_of_extras. apply plain_free; reflexivity. }
  pose proof (variant_fields_read v) as (R1 & R2 & R3 & R4 & R5 & R6 & R7 & R8 & R9).
  apply variant_init_reads;
    try (rewrite read_field by (simpl; tauto); assumption).
  - unfold Dict.mem. rewrite get_cons.
    replace (String.eqb "name" "self") with false by reflexivity.
    unfold PluginDefinition.flat_extras. rewrite get_absent.
    + replace (Dict.get "self" (Variant.fields v))
        with (@None arg); [reflexivity|].
      symmetry. apply get_none. intros Hin.
      apply keys_variant_fields in Hin. simpl in Hin.
      intuition discriminate.
    + rewrite keys_of_extras. apply plain_free; reflexivity.
  - rewrite get_cons. simpl. now destruct (Variant.name v).
  - change (Dict.filter_keys ?p (("name", ?x) :: ?l))
      with (Dict.filter_keys p l).
    unfold PluginDefinition.flat_extras. rewrite filter_keys_app.
    rewrite filter_keys_all, filter_keys_none.
    + rewrite app_nil_r. apply as_extras_of_extras.
    + intros k Hk. apply keys_variant_fields in Hk.
      apply negb_false_iff, among_in. simpl in *. tauto.
    + intros k Hk. rewrite keys_of_extras in Hk.
      apply negb_true_iff, among_not_in. intros Hp.
      apply keys_plain in Hk. destruct Hk as [Hk|Hk].
      * simpl in Hk, Hp. intuition (subst; discriminate).
      * apply not_an_extra in Hk; [exact Hk|].
        apply among_in. unfold PluginDefinition.RESERVED.
        apply in_or_app. right. apply in_or_app. right.
        apply in_or_app. now left.
Qed.

(** Popping the presentation attributes off [plain] gives the attributes
    of the definition, and leaves its extras. *)
Lemma flat_finish (variants : list PluginDefinition.variant_src) :
  PluginDefinition.finish (PluginDefinition.type d) (PluginDefinition.name d)
    (PluginDefinition.namespace d) plain variants =
  (variants <- mapM PluginDefinition.parse_variant variants ;;
   Ok {| PluginDefinition.type := PluginDefinition.type d;
         PluginDefinition.name := PluginDefinition.name d;
         PluginDefinition.namespace := PluginDefinition.namespace d;
         PluginDefinition.hidden := PluginDefinition.hidden d;
         PluginDefinition.label := PluginDefinition.label d;
         PluginDefinition.logo_url := PluginDefinition.logo_url d;
         PluginDefinition.description := PluginDefinition.description d;
         PluginDefinition.extras := PluginDefinition.extras d;
         PluginDefinition.variants := variants |}).
Proof.
  assert (Hfresh : forall k, In k PluginDefinition.PRESENTATION_ATTRS ->
                     ~ In k (Dict.keys (PluginDefinition.extras d))).
  { intros k Hk. apply not_an_extra, reserved_keys.
    simpl in *. tauto. }
  assert (H1 := Hfresh "hidden" ltac:(simpl; tauto)).
  assert (H2 := Hfresh "label" ltac:(simpl; tauto)).
  assert (H3 := Hfresh "logo_url" ltac:(simpl; tauto)).
  assert (H4 := Hfresh "description" ltac:(simpl; tauto)).
  unfold PluginDefinition.finish, PluginDefinition.presentation,
    item_of.
  destruct (is_none (PluginDefinition.hidden d)) eqn:E1;
    destruct (is_none (PluginDefinition.label d)) eqn:E2;
    destruct (is_none (PluginDefinition.logo_url d)) eqn:E3;
    destruct (is_none (PluginDefinition.description d)) eqn:E4;
    try apply is_none_true in E1; try apply is_none_true in E2;
    try apply is_none_true in E3; try apply is_none_true in E4;
    rewrite ?E1, ?E2, ?E3, ?E4; simpl;
    unfold Dict.get_default; simpl;
    rewrite ?remove_absent by assumption;
    rewrite ?(proj2 (get_none _ _)) by assumption;
    reflexivity.
Qed.

End FlatForm.

Lemma set_extras_back (e : dict) (v : Variant.t) :
  Variant.extras v = [] -> Variant.set_extras [] (Variant.set_extras e v) = v.
Proof. destruct v. simpl. now intros ->. Qed.

(** Re-parsing the serialized form of a definition in flat form gives the
    definition back. *)
Lemma reparse_flat (d : PluginDefinition.t) :
  PluginDefinition.flat d ->
  exists serialized,
    PluginDefinition.__iter__ d = Ok serialized /\
    PluginDefinition.reparse (PluginDefinition.type d) serialized = Ok d.
Proof.
  intros ((v & Hv & Hext) & Hwf & Hfree).
  exists (PluginDefinition.own_items d ++ PluginDefinition.inlined v).
  split.
  { apply iter_single; [exact Hv|].
    apply (not_an_extra d Hfree), reserved_keys. simpl. tauto. }
  unfold PluginDefinition.reparse.
  rewrite of_items_wf by now apply wf_entry.
  unfold PluginDefinition.new, Dict.mem.
  rewrite (entry_unbound d v Hfree Hext "self") by reflexivity.
  rewrite (entry_unbound d v Hfree Hext "plugin_type") by reflexivity.
  rewrite (entry_unbound d v Hfree Hext "variants") by reflexivity.
  rewrite (entry_variant d v Hfree Hext).
  rewrite (entry_extras d v Hfree Hext), mapM_lifted.
  change (Dict.get "name" (PluginDefinition.own_items d ++ _))
    with (Some (PluginDefinition.FVal (VStr (PluginDefinition.name d)))).
  change (Dict.get "namespace" (PluginDefinition.own_items d ++ _))
    with (Some (PluginDefinition.FVal (VStr (PluginDefinition.namespace d)))).
  simpl. unfold PluginDefinition.__init__.
  rewrite (flat_variant d v Hfree). simpl.
  change (Variant.extras (Variant.set_extras ?e v)) with e.
  rewrite (flat_finish d Hfree). simpl.
  rewrite (set_extras_back _ v Hext), <- Hv. now destruct d.
Qed.

Lemma among_app (l1 l2 : list string) (k : string) :
  among (l1 ++ l2) k = among l1 k || among l2 k.
Proof. unfold among. apply existsb_app. Qed.

Lemma keys_mapM {E A B} (f : string * A -> result E (string * B))
    (l : list (string * A)) (r : list (string * B)) :
  (forall x y, f x = Ok y -> fst y = fst x) ->
  mapM f l = Ok r -> Dict.keys r = Dict.keys l.
Proof.
  intros Hf. revert r. induction l as [|x l IH]; simpl; intros r H.
  - now injection H as <-.
  - destruct (f x) as [y|] eqn:Hy; simpl in H; [|discriminate].
    destruct (mapM f l) as [ys|]; simpl in H; [|discriminate].
    injection H as <-. simpl. now rewrite (Hf _ _ Hy), (IH ys eq_refl).
Qed.

(** A definition built from a manifest entry without [variants] is in flat
    form. *)
Lemma new_is_flat (plugin_type : PluginType.t)
    (fields : list (string * PluginDefinition.field)) (d : PluginDefinition.t) :
  Dict.wf fields ->
  PluginDefinition.as_variants (Dict.get "variants" fields) = Ok [] ->
  PluginDefinition.new plugin_type fields = Ok d ->
  PluginDefinition.flat d.
Proof.
  intros Hwf Hvariants H. unfold PluginDefinition.new in H.
  destruct (Dict.mem "self" fields) eqn:Hself; [discriminate|].
  destruct (Dict.mem "plugin_type" fields) eqn:Hpt; [discriminate|].
  simpl in H. rewrite Hvariants in H.
  repeat bind_ok H.
  match goal with
  | E : mapM _ (Dict.filter_keys _ fields) = Ok ?kw |- _ =>
      rename E into Hkw; rename kw into extras
  end.
  assert (Hkeys : Dict.keys extras =
                  Dict.keys (Dict.filter_keys
                               (fun k => negb (among PluginDefinition.PARAMS k))
                               fields)).
  { eapply keys_mapM; [|exact Hkw]. intros [k f] y Hy. simpl in Hy.
    destruct f as [?|]; simpl in Hy; [|discriminate].
    now injection Hy as <-. }
  assert (Hwfe : Dict.wf extras).
  { unfold Dict.wf. rewrite Hkeys. now apply wf_filter_keys. }
  match goal with
  | Hv' : Variant.__init__positional ?variant extras = Ok ?v' |- _ =>
      rename Hv' into Hv; rename v' into v;
      pose proof (flat_init plugin_type a a0 variant extras v Hwfe Hv) as Hd
  end.
  unfold PluginDefinition.__init__ in Hd. rewrite Hv in Hd. simpl in Hd.
  rewrite Hd in H.
  injection H as <-. clear Hd.
  unfold Variant.__init__positional in Hv.
  destruct (Dict.mem "name" extras); [discriminate|].
  apply variant_init_ok in Hv. destruct Hv as [Hextras _].
  assert (Hin : forall k,
             In k (Dict.keys (Variant.extras v)) ->
             In k (Dict.keys fields) /\
             among PluginDefinition.PARAMS k = false /\
             among Variant.PARAMS k = false).
  { intros k Hk. rewrite <- keys_of_extras, Hextras in Hk.
    rewrite keys_filter_keys in Hk. apply filter_In in Hk.
    destruct Hk as [Hk Hp]. apply negb_true_iff in Hp.
    destruct Hk as [<-|Hk]; [discriminate|].
    rewrite Hkeys, keys_filter_keys in Hk. apply filter_In in Hk.
    destruct Hk as [Hk Hp']. apply negb_true_iff in Hp'. tauto. }
  split; [|split]; simpl.
  - eexists. split; reflexivity.
  - apply wf_filter_keys. unfold Dict.wf.
    rewrite <- keys_of_extras, Hextras. apply wf_filter_keys.
    unfold Dict.wf. simpl. constructor; [|exact Hwfe].
    intros Hn. rewrite Hkeys, keys_filter_keys in Hn.
    apply filter_In in Hn. destruct Hn as [_ Hn]. discriminate.
  - intros k Hk. rewrite keys_filter_keys in Hk. apply filter_In in Hk.
    destruct Hk as [Hk Hpres]. apply negb_true_iff in Hpres.
    apply Hin in Hk. destruct Hk as (Hf & Hp & Hvp).
    unfold PluginDefinition.RESERVED. rewrite !among_app, Hp, Hvp, Hpres.
    simpl. rewrite orb_false_r. apply among_not_in.
    unfold Dict.mem in Hself, Hpt. apply in_keys in Hf.
    intros [<-|[<-|[]]].
    + now destruct (Dict.get "self" fields).
    + now destruct (Dict.get "plugin_type" fields).
Qed.

Lemma inlined_form (v : Variant.t) :
  PluginDefinition.inlined v =
  item_of "variant" (of_opt_str (Variant.name v)) PluginDefinition.FVal
  ++ List.map (fun ka => (fst ka, PluginDefinition.FArg (snd ka)))
       (Variant.fields v)
  ++ List.map (fun ka => (if String.eqb (fst ka) "name" then "variant"
                          else fst ka,
                          PluginDefinition.FArg (snd ka)))
       (of_extras (Variant.extras v)).
Proof.
  unfold PluginDefinition.inlined, Variant.items.
  rewrite !map_app, map_item_of. simpl.
  apply f_equal2; [apply item_of_ext; reflexivity|].
  apply f_equal2; [|reflexivity].
  apply map_ext_in. intros [k a] Hin. simpl.
  replace (String.eqb k "name") with false; [reflexivity|].
  assert (Hk : In k (tl Variant.PARAMS)).
  { apply keys_variant_fields with (v := v).
    change k with (fst (k, a)). now apply in_map. }
  simpl in Hk. repeat (destruct Hk as [<-|Hk]; [reflexivity|]). destruct Hk.
Qed.

Lemma eq_refl_definition (d : PluginDefinition.t) :
  PluginDefinition.__eq__ d d = true.
Proof.
  unfold PluginDefinition.__eq__, PluginType.eqb.
  now rewrite !String.eqb_refl.
Qed.

(** The constructor stores the type and the name it is given. *)
Lemma init_name_type (plugin_type : PluginType.t) (name namespace : string)
    (variant : option string) (variants : list PluginDefinition.variant_src)
    (extras : kwargs) (d : PluginDefinition.t) :
  PluginDefinition.__init__ plugin_type name namespace variant variants extras
    = Ok d ->
  PluginDefinition.type d = plugin_type /\ PluginDefinition.name d = name.
Proof.
  unfold PluginDefinition.__init__, PluginDefinition.finish.
  destruct variants as [|x xs]; intros H.
  - bind_ok H. injection H as <-. now split.
  - destruct (as_extras extras); [|discriminate].
    cbv beta iota delta [bind] in H.
    destruct (mapM PluginDefinition.parse_variant (x :: xs)); [|discriminate].
    injection H as <-. now split.
Qed.

(** A key that the items do not bind keeps its value in an update. *)
Lemma get_update_other {A} (k : string) (d items : list (string * A)) :
  ~ In k (Dict.keys items) ->
  Dict.get k (Dict.update d items) = Dict.get k d.
Proof.
  unfold Dict.update. revert d.
  induction items as [|[k0 v0] items IH]; simpl; intros d H; [reflexivity|].
  rewrite IH by tauto. rewrite get_set.
  destruct (String.eqb k0 k) eqn:E; [|reflexivity].
  apply String.eqb_eq in E. tauto.
Qed.

(** No inlined item of a variant has the key [name]. *)
Lemma inlined_no_name (v : Variant.t) :
  ~ In "name" (Dict.keys (PluginDefinition.inlined v)).
Proof.
  unfold PluginDefinition.inlined, Dict.keys. rewrite map_map. simpl.
  intros H. apply in_map_iff in H. destruct H as ([k a] & Hk & _).
  simpl in Hk. destruct (String.eqb k "name") eqn:E; [discriminate|].
  apply String.eqb_neq in E. congruence.
Qed.

(** The definition that re-parsing returns has the name under which the
    serialized form lists the definition. *)
Lemma reparse_name (d d' : PluginDefinition.t) (v : Variant.t) :
  ~ In "name" (Dict.keys (PluginDefinition.extras d)) ->
  PluginDefinition.reparse (PluginDefinition.type d)
    (PluginDefinition.own_items d ++ PluginDefinition.inlined v) = Ok d' ->
  PluginDefinition.type d' = PluginDefinition.type d /\
  PluginDefinition.name d' = PluginDefinition.name d.
Proof.
  intros Hname. unfold PluginDefinition.reparse, PluginDefinition.new.
  assert (Hget : Dict.get "name"
                   (Dict.of_items
                      (PluginDefinition.own_items d
                       ++ PluginDefinition.inlined v)) =
                 Some (PluginDefinition.FVal
                         (VStr (PluginDefinition.name d)))).
  { unfold Dict.of_items, PluginDefinition.own_items. simpl.
    change (fold_left _ ?items ?d0) with (Dict.update d0 items).
    rewrite get_update_other; [reflexivity|].
    rewrite !keys_app, !in_app_iff, keys_lifted.
    intros [[H|[H|[H|[H|H]]]]|H];
      try (apply in_keys_item_of in H; discriminate).
    - contradiction.
    - now apply inlined_no_name in H. }
  destruct (_ || _); [discriminate|].
  rewrite Hget. simpl. intros H. repeat bind_ok H.
  now apply init_name_type in H.
Qed.




(** * Further properties *)

(** ** Strings *)

Lemma length_append (a b : string) :
  String.length (a +++ b) = String.length a + String.length b.
Proof. induction a as [|c a IH]; simpl; [reflexivity | now rewrite IH]. Qed.

Lemma substring_none (s : string) : substring 0 0 s = "".
Proof. now destruct s. Qed.

Lemma substring_whole (s : string) : substring 0 (String.length s) s = s.
Proof. induction s as [|c s IH]; simpl; [reflexivity | now rewrite IH]. Qed.

Lemma substring_front (a b : string) :
  substring 0 (String.length a) (a +++ b) = a.
Proof.
  induction a as [|c a IH]; simpl; [apply substring_none | now rewrite IH].
Qed.

Lemma substring_back (a b : string) :
  substring (String.length a) (String.length b) (a +++ b) = b.
Proof.
  induction a as [|c a IH]; simpl; [apply substring_whole | exact IH].
Qed.

(** [(a + b)[:-len(b)]] is [a], and [a + b] ends with [b]. *)
Lemma drop_last_append (a b : string) :
  Str.drop_last (String.length b) (a +++ b) = a.
Proof.
  unfold Str.drop_last. rewrite length_append, Nat.add_sub.
  apply substring_front.
Qed.

Lemma endswith_append (a b : string) : Str.endswith (a +++ b) b = true.
Proof.
  unfold Str.endswith. rewrite length_append.
  replace (String.length a + String.length b - String.length b)
    with (String.length a) by lia.
  rewrite substring_back, String.eqb_refl, andb_true_r.
  apply Nat.leb_le. lia.
Qed.

(** ** The names of a plugin type *)

Lemma in_members (t : PluginType.t) : In t PluginType.members.
Proof. destruct t; simpl; tauto. Qed.

Lemma singular_no_s (t : PluginType.t) :
  Str.endswith (PluginType.singular t) "s" = false.
Proof. destruct t; reflexivity. Qed.

Lemma value_of_singular (v : string) (t : PluginType.t) :
  PluginType.value t = v +++ "s" -> PluginType.singular t = v.
Proof.
  intros H. unfold PluginType.singular. rewrite H.
  apply (drop_last_append v "s").
Qed.

Lemma from_cli_argument_ok (v : string) (t : PluginType.t) :
  PluginType.from_cli_argument v = Ok t ->
  PluginType.value t = PluginType.normalize v.
Proof.
  unfold PluginType.from_cli_argument, PluginType.of_value.
  destruct (PluginType.lookup _) as [t'|] eqn:E; [|discriminate].
  intros [= <-]. now apply lookup_some.
Qed.

Lemma from_cli_argument_member (v : string) (t : PluginType.t) :
  PluginType.value t = PluginType.normalize v ->
  PluginType.from_cli_argument v = Ok t.
Proof.
  unfold PluginType.from_cli_argument, PluginType.of_value.
  intros <-. now rewrite lookup_value.
Qed.

Lemma from_cli_argument_total (v : string) :
  (exists t, PluginType.from_cli_argument v = Ok t) \/
  PluginType.from_cli_argument v = Err ValueError.
Proof.
  unfold PluginType.from_cli_argument, PluginType.of_value.
  destruct (PluginType.lookup _) as [t|]; [left; now exists t | now right].
Qed.

(** X1: the arguments that [from_cli_argument] accepts are exactly the
    elements of [cli_arguments()], the sixteen singular and plural names,
    which are pairwise distinct; every other string raises [ValueError]. *)
Theorem cli_arguments_are_the_accepted_ones :
  NoDup PluginType.cli_arguments /\
  List.length PluginType.cli_arguments = 2 * List.length PluginType.members /\
  forall v : string,
    ((exists t, PluginType.from_cli_argument v = Ok t) <->
     In v PluginType.cli_arguments) /\
    (PluginType.from_cli_argument v = Err ValueError <->
     ~ In v PluginType.cli_arguments).
Proof.
  split.
  { repeat constructor; simpl; intuition discriminate. }
  split; [reflexivity|].
  intros v.
  assert (Hiff : (exists t, PluginType.from_cli_argument v = Ok t) <->
                 In v PluginType.cli_arguments).
  { unfold PluginType.cli_arguments. rewrite in_app_iff, !in_map_iff. split.
    - intros [t Ht]. apply from_cli_argument_ok in Ht.
      unfold PluginType.normalize in Ht.
      destruct (Str.endswith v "s"); simpl in Ht.
      + right. exists t. split; [exact Ht | apply in_members].
      + left. exists t. split; [now apply value_of_singular | apply in_members].
    - intros [(t & <- & _)|(t & <- & _)]; exists t;
        apply from_cli_argument_member.
      + now rewrite singular_plus_s.
      + now rewrite value_normal. }
  split; [exact Hiff|]. rewrite <- Hiff. split.
  - intros H [t Ht]. congruence.
  - intros H. destruct (from_cli_argument_total v) as [Ht|Ht];
      [contradiction | exact Ht].
Qed.

(** X2: a reference built from a string takes the member whose value the
    string is, and [value_exists] tells whether there is one: the plural
    names are accepted and give the same type as the member itself, the
    singular names, which [from_cli_argument] accepts, raise
    [ValueError]. *)
Theorem plugin_ref_type_from_string :
  (forall (v : string) (t : PluginType.t),
      PluginRef._type (PluginRef.Text v) = Ok t <-> PluginType.value t = v) /\
  (forall v : string,
      PluginType.value_exists v = true <->
      exists t, PluginRef._type (PluginRef.Text v) = Ok t) /\
  (forall v : string,
      PluginType.value_exists v = false <->
      PluginRef._type (PluginRef.Text v) = Err ValueError) /\
  (forall t : PluginType.t,
      PluginRef._type (PluginRef.Text (PluginType.value t)) =
        PluginRef._type (PluginRef.Member t) /\
      PluginRef._type (PluginRef.Text (PluginType.singular t)) =
        Err ValueError /\
      PluginType.value_exists (PluginType.singular t) = false).
Proof.
  unfold PluginRef._type, PluginType.of_value, PluginType.value_exists.
  repeat split.
  - destruct (PluginType.lookup v) as [t'|] eqn:E; [|discriminate].
    intros [= <-]. now apply lookup_some.
  - intros <-. now rewrite lookup_value.
  - destruct (PluginType.lookup v) as [t|]; [now exists t | discriminate].
  - intros [t Ht]. now destruct (PluginType.lookup v).
  - now destruct (PluginType.lookup v).
  - now destruct (PluginType.lookup v).
  - now rewrite lookup_value.
  - now destruct t.
  - now destruct t.
Qed.

(** X3: the value, the singular name and the descriptor each identify the
    plugin type.  The verb does not: "transforms" and "transformers" share
    the verb "transform", and they are the only two types that share one.
    The verb is always the beginning of the singular name. *)
Theorem names_identify_the_type_but_verb (a b : PluginType.t) :
  (PluginType.value a = PluginType.value b <-> a = b) /\
  (PluginType.singular a = PluginType.singular b <-> a = b) /\
  (PluginType.descriptor a = PluginType.descriptor b <-> a = b) /\
  (PluginType.verb a = PluginType.verb b <->
   a = b \/
   (a = PluginType.TRANSFORMS /\ b = PluginType.TRANSFORMERS) \/
   (a = PluginType.TRANSFORMERS /\ b = PluginType.TRANSFORMS)) /\
  String.prefix (PluginType.verb a) (PluginType.singular a) = true.
Proof.
  destruct a, b; vm_compute;
    repeat split; intros; try reflexivity; try discriminate;
    try tauto;
    repeat match goal with
           | H : _ \/ _ |- _ => destruct H
           | H : _ /\ _ |- _ => destruct H
           end; discriminate.
Qed.

(** X4: [from_cli_argument] forgives one missing "s" and nothing else: an
    argument that does not end with "s" resolves as the argument with an
    "s" appended does, and an argument that ends with "s" is never accepted
    with one more "s" appended. *)
Theorem from_cli_argument_appends_one_s (v : string) :
  (Str.endswith v "s" = false ->
   PluginType.from_cli_argument v = PluginType.from_cli_argument (v +++ "s")) /\
  (Str.endswith v "s" = true ->
   PluginType.from_cli_argument (v +++ "s") = Err ValueError).
Proof.
  assert (Hs : PluginType.normalize (v +++ "s") = v +++ "s").
  { unfold PluginType.normalize. now rewrite endswith_append. }
  unfold PluginType.from_cli_argument. rewrite Hs. split.
  - intros H. unfold PluginType.normalize. now rewrite H.
  - intros H. unfold PluginType.of_value.
    destruct (PluginType.lookup (v +++ "s")) as [t|] eqn:E; [|reflexivity].
    apply lookup_some, value_of_singular in E.
    rewrite <- E, singular_no_s in H. discriminate.
Qed.

(** ** Equality and hashing of plugin references *)

Lemma type_eqb_eq (a b : PluginType.t) : PluginType.eqb a b = true <-> a = b.
Proof.
  unfold PluginType.eqb. rewrite String.eqb_eq.
  split; [|now intros ->]. destruct a, b; intros H; try reflexivity;
    discriminate H.
Qed.

Lemma eq_spec (a b : PluginDefinition.t) :
  PluginDefinition.__eq__ a b = true <->
  PluginDefinition.name a = PluginDefinition.name b /\
  PluginDefinition.type a = PluginDefinition.type b.
Proof.
  unfold PluginDefinition.__eq__.
  now rewrite andb_true_iff, String.eqb_eq, type_eqb_eq.
Qed.

(** X5: two plugin references are equal exactly when they have the same
    name and the same type, whatever their namespaces, extras and variants
    are.  This equality is an equivalence, and equal references have equal
    hashes. *)
Theorem eq_agrees_with_hash (a b : PluginDefinition.t) :
  (PluginDefinition.__eq__ a b = true <->
   PluginDefinition.name a = PluginDefinition.name b /\
   PluginDefinition.type a = PluginDefinition.type b) /\
  (forall hash : PluginType.t * string -> Z,
      PluginDefinition.__eq__ a b = true ->
      PluginDefinition.__hash__ hash a = PluginDefinition.__hash__ hash b) /\
  PluginDefinition.__eq__ a a = true /\
  PluginDefinition.__eq__ a b = PluginDefinition.__eq__ b a /\
  (forall c : PluginDefinition.t,
      PluginDefinition.__eq__ a b = true ->
      PluginDefinition.__eq__ b c = true ->
      PluginDefinition.__eq__ a c = true).
Proof.
  split; [apply eq_spec|]. split; [|split; [|split]].
  - intros hash H. apply eq_spec in H. destruct H as [Hn Ht].
    unfold PluginDefinition.__hash__. now rewrite Hn, Ht.
  - now apply eq_spec.
  - unfold PluginDefinition.__eq__, PluginType.eqb.
    now rewrite (String.eqb_sym (PluginDefinition.name a)),
      (String.eqb_sym (PluginType.value (PluginDefinition.type a))).
  - intros c Hab Hbc. apply eq_spec in Hab, Hbc. apply eq_spec.
    destruct Hab, Hbc. split; congruence.
Qed.

(** ** The default logo *)

Lemma strip_tap (s : string) :
  PluginDefinition.strip_prefix "tap-" ("tap-" +++ s) = Some s.
Proof.
  unfold PluginDefinition.strip_prefix. simpl.
  replace (String.prefix "" s) with true by now destruct s.
  now rewrite Nat.sub_0_r, substring_whole.
Qed.

Lemma strip_target (s : string) :
  PluginDefinition.strip_prefix "target-" ("target-" +++ s) = Some s.
Proof.
  unfold PluginDefinition.strip_prefix. simpl.
  replace (String.prefix "" s) with true by now destruct s.
  now rewrite Nat.sub_0_r, substring_whole.
Qed.

(** X6: the default logo of a definition is named after the plugin without
    one leading "tap-" or "target-": a name "tap-" + s and a name
    "target-" + s both give "/static/logos/" + s + "-logo.png" (so an
    extractor and a loader of the same short name share their default
    logo), only one prefix is taken off, and a name that starts with
    neither is used as it is. *)
Theorem default_logo_url_strips_one_prefix (d : PluginDefinition.t)
    (s : string) :
  (PluginDefinition.name d = "tap-" +++ s \/
   PluginDefinition.name d = "target-" +++ s ->
   PluginDefinition.default_logo_url d =
     "/static/logos/" +++ s +++ "-logo.png") /\
  (String.prefix "tap-" (PluginDefinition.name d) = false ->
   String.prefix "target-" (PluginDefinition.name d) = false ->
   PluginDefinition.default_logo_url d =
     "/static/logos/" +++ PluginDefinition.name d +++ "-logo.png").
Proof.
  unfold PluginDefinition.default_logo_url. split.
  - intros [H|H]; rewrite H.
    + now rewrite strip_tap.
    + now rewrite strip_target.
  - intros Htap Htarget. unfold PluginDefinition.strip_prefix.
    now rewrite Htap, Htarget.
Qed.

(** ** Construction with a list of variants *)

Lemma keys_as_extras (kw : kwargs) (e : dict) :
  as_extras kw = Ok e -> Dict.keys e = Dict.keys kw.
Proof.
  intros H. apply as_extras_ok in H. now rewrite <- H, keys_of_extras.
Qed.

Lemma popped_of_extras (k : string) (e : dict) :
  PluginDefinition.popped k (of_extras e) = Dict.get_default k VNone e.
Proof.
  unfold PluginDefinition.popped, Dict.get_default.
  rewrite get_of_extras. now destruct (Dict.get k e).
Qed.

(** The definition that [__init__] builds from a list of variants. *)
Lemma listed_init (plugin_type : PluginType.t) (name namespace : string)
    (variant : option string) (x : PluginDefinition.variant_src)
    (xs : list PluginDefinition.variant_src) (extras : kwargs)
    (d : PluginDefinition.t) :
  Dict.wf extras ->
  PluginDefinition.__init__ plugin_type name namespace variant (x :: xs)
    extras = Ok d ->
  exists e vs,
    as_extras extras = Ok e /\
    mapM PluginDefinition.parse_variant (x :: xs) = Ok vs /\
    d = {| PluginDefinition.type := plugin_type;
           PluginDefinition.name := name;
           PluginDefinition.namespace := namespace;
           PluginDefinition.hidden := PluginDefinition.popped "hidden" extras;
           PluginDefinition.label := PluginDefinition.popped "label" extras;
           PluginDefinition.logo_url :=
             PluginDefinition.popped "logo_url" extras;
           PluginDefinition.description :=
             PluginDefinition.popped "description" extras;
           PluginDefinition.extras :=
             Dict.filter_keys
               (fun k => negb (among PluginDefinition.PRESENTATION_ATTRS k))
               e;
           PluginDefinition.variants := vs |}.
Proof.
  intros Hwf. unfold PluginDefinition.__init__, PluginDefinition.finish.
  destruct (as_extras extras) as [e|] eqn:He; [|discriminate].
  cbv beta iota delta [bind].
  destruct (mapM PluginDefinition.parse_variant (x :: xs)) as [vs|] eqn:Hvs;
    [|discriminate].
  intros [= <-]. exists e, vs. split; [reflexivity|]. split; [reflexivity|].
  assert (Hplain : Dict.wf e).
  { unfold Dict.wf. now rewrite (keys_as_extras _ _ He). }
  apply as_extras_ok in He. subst extras.
  rewrite presentation_attrs_popped by exact Hplain.
  rewrite !popped_of_extras.
  unfold Dict.get_default. rewrite !get_remove by discriminate.
  reflexivity.
Qed.

(** X7: when [variants] is not empty, the [variant] keyword plays no part,
    the variants are parsed one by one, and every other keyword that is not
    a presentation attribute stays in the extras of the definition, in
    order, also a keyword named after a field of [Variant] such as
    [pip_url]; no variant receives it. *)
Theorem init_with_variants_keeps_keywords (plugin_type : PluginType.t)
    (name namespace : string) (variant : option string)
    (x : PluginDefinition.variant_src)
    (xs : list PluginDefinition.variant_src) (extras : kwargs)
    (d : PluginDefinition.t) :
  Dict.wf extras ->
  PluginDefinition.__init__ plugin_type name namespace variant (x :: xs)
    extras = Ok d ->
  (forall other : option string,
      PluginDefinition.__init__ plugin_type name namespace other (x :: xs)
        extras = Ok d) /\
  mapM PluginDefinition.parse_variant (x :: xs) =
    Ok (PluginDefinition.variants d) /\
  of_extras (PluginDefinition.extras d) =
    Dict.filter_keys
      (fun k => negb (among PluginDefinition.PRESENTATION_ATTRS k)) extras /\
  (forall k : string,
      among PluginDefinition.PRESENTATION_ATTRS k = false ->
      option_map AVal (Dict.get k (PluginDefinition.extras d)) =
        Dict.get k extras).
Proof.
  intros Hwf Hd. split; [intros other; exact Hd|].
  destruct (listed_init _ _ _ _ _ _ _ _ Hwf Hd) as (e & vs & He & Hvs & ->).
  simpl. split; [exact Hvs|]. apply as_extras_ok in He.
  assert (Hextras :
            of_extras
              (Dict.filter_keys
                 (fun k => negb (among PluginDefinition.PRESENTATION_ATTRS k))
                 e) =
            Dict.filter_keys
              (fun k => negb (among PluginDefinition.PRESENTATION_ATTRS k))
              extras)
    by now rewrite of_extras_filter_keys, He.
  split; [exact Hextras|].
  intros k Hk. rewrite <- get_of_extras, Hextras, get_filter_keys.
  cbv beta. now rewrite Hk.
Qed.

Lemma init_with_variants_keeps_keywords_witness :
  exists d : PluginDefinition.t,
    PluginDefinition.__init__ PluginType.EXTRACTORS "tap-gitlab" "tap_gitlab"
      (Some "v1")
      [PluginDefinition.Parsed (Sample.variant (Some "meltano") None None)]
      Sample.labelled_fields = Ok d /\
    List.map Variant.pip_url (PluginDefinition.variants d) = [None] /\
    of_extras (PluginDefinition.extras d) = Sample.flat_fields.
Proof.
  assert (Hwf : Dict.wf Sample.labelled_fields).
  { repeat constructor; simpl; intuition discriminate. }
  eexists. split; [reflexivity|]. split; [reflexivity|].
  exact (proj1 (proj2 (proj2
    (init_with_variants_keeps_keywords PluginType.EXTRACTORS "tap-gitlab"
       "tap_gitlab" (Some "v1")
       (PluginDefinition.Parsed (Sample.variant (Some "meltano") None None))
       [] Sample.labelled_fields _ Hwf eq_refl)))).
Defined.

(** X8: whatever the constructor is given, a definition it returns has at
    least one variant, holds the type, name and namespace it was given, and
    its extras are a dictionary that binds none of the four presentation
    attributes and no key that was not a keyword. *)
Theorem init_establishes_invariants (plugin_type : PluginType.t)
    (name namespace : string) (variant : option string)
    (variants : list PluginDefinition.variant_src) (extras : kwargs)
    (d : PluginDefinition.t) :
  Dict.wf extras ->
  PluginDefinition.__init__ plugin_type name namespace variant variants
    extras = Ok d ->
  PluginDefinition.type d = plugin_type /\
  PluginDefinition.name d = name /\
  PluginDefinition.namespace d = namespace /\
  PluginDefinition.variants d <> [] /\
  Dict.wf (PluginDefinition.extras d) /\
  (forall k : string,
      among PluginDefinition.PRESENTATION_ATTRS k = true ->
      Dict.get k (PluginDefinition.extras d) = None) /\
  (forall k : string,
      In k (Dict.keys (PluginDefinition.extras d)) ->
      In k (Dict.keys extras)).
Proof.
  intros Hwf Hd.
  pose proof (init_variants_nonempty _ _ _ _ _ _ _ Hd) as Hne.
  assert (Hfilter : forall e : dict,
             Dict.wf e ->
             (forall k, In k (Dict.keys e) -> In k (Dict.keys extras)) ->
             let e' :=
               Dict.filter_keys
                 (fun k => negb (among PluginDefinition.PRESENTATION_ATTRS k))
                 e in
             Dict.wf e' /\
             (forall k, among PluginDefinition.PRESENTATION_ATTRS k = true ->
                        Dict.get k e' = None) /\
             (forall k, In k (Dict.keys e') -> In k (Dict.keys extras))).
  { intros e He Hsub e'. split; [now apply wf_filter_keys|]. split.
    - intros k Hk. unfold e'. rewrite get_filter_keys. cbv beta.
      now rewrite Hk.
    - intros k Hk. apply Hsub. unfold e' in Hk.
      rewrite keys_filter_keys in Hk. now apply filter_In in Hk. }
  destruct variants as [|x xs].
  - assert (Hv : exists v,
               Variant.__init__positional variant extras = Ok v).
    { unfold PluginDefinition.__init__ in Hd.
      destruct (Variant.__init__positional variant extras) as [v|];
        [now exists v | discriminate]. }
    destruct Hv as [v Hv].
    rewrite (flat_init _ _ _ _ _ v Hwf Hv) in Hd. injection Hd as <-.
    simpl. do 3 (split; [reflexivity|]). split; [discriminate|].
    unfold Variant.__init__positional in Hv.
    destruct (Dict.mem "name" extras); [discriminate|].
    pose proof (variant_init_ok _ _ Hv) as (Hextras & _).
    simpl in Hextras.
    assert (Hkeys : Dict.keys (Variant.extras v) =
                    filter (fun k => negb (among Variant.PARAMS k))
                      (Dict.keys extras)).
    { now rewrite <- keys_of_extras, Hextras, keys_filter_keys. }
    apply Hfilter.
    + unfold Dict.wf. rewrite Hkeys. now apply NoDup_filter.
    + intros k Hk. rewrite Hkeys in Hk. now apply filter_In in Hk.
  - destruct (listed_init _ _ _ _ _ _ _ _ Hwf Hd)
      as (e & vs & He & Hvs & Heq).
    rewrite Heq in Hne |- *. simpl in *.
    do 3 (split; [reflexivity|]). split; [exact Hne|].
    pose proof (keys_as_extras _ _ He) as Hkeys.
    apply Hfilter.
    + unfold Dict.wf. now rewrite Hkeys.
    + intros k Hk. now rewrite <- Hkeys.
Qed.

Lemma init_establishes_invariants_witness :
  exists d : PluginDefinition.t,
    PluginDefinition.__init__ PluginType.EXTRACTORS "tap-gitlab" "tap_gitlab"
      (Some "v1") [] Sample.labelled_fields = Ok d /\
    PluginDefinition.variants d <> [] /\
    Dict.get "label" (PluginDefinition.extras d) = None.
Proof.
  assert (Hwf : Dict.wf Sample.labelled_fields).
  { repeat constructor; simpl; intuition discriminate. }
  eexists. split; [reflexivity|].
  destruct (init_establishes_invariants PluginType.EXTRACTORS "tap-gitlab"
              "tap_gitlab" (Some "v1") [] Sample.labelled_fields _ Hwf
              eq_refl) as (_ & _ & _ & Hne & _ & Hpop & _).
  split; [exact Hne | now apply Hpop].
Defined.

(** ** Resolution without variants *)

Lemma get_variant_never_index (d : PluginDefinition.t) (s : string) :
  PluginDefinition.get_variant d s <>
  Err (PluginDefinition.Raised IndexError).
Proof.
  unfold PluginDefinition.get_variant.
  destruct (PluginDefinition.find_named _ _); discriminate.
Qed.

Lemma first_variant_index (d : PluginDefinition.t) :
  PluginDefinition.first_variant d = Err (PluginDefinition.Raised IndexError)
  <-> PluginDefinition.variants d = [].
Proof.
  unfold PluginDefinition.first_variant.
  destruct (PluginDefinition.variants d); split; congruence.
Qed.

Lemma first_variant_member (d : PluginDefinition.t) (v : Variant.t) :
  PluginDefinition.first_variant d = Ok v ->
  nth_error (PluginDefinition.variants d) 0 = Some v.
Proof.
  unfold PluginDefinition.first_variant.
  destruct (PluginDefinition.variants d); [discriminate|].
  now intros [= <-].
Qed.

(** The selectors that stand for the default variant and for the original
    one. *)
Lemma find_variant_reserved (d : PluginDefinition.t) :
  PluginDefinition.find_variant d (PluginDefinition.Named "default") =
    PluginDefinition.first_variant d /\
  PluginDefinition.find_variant d (PluginDefinition.Named "original") =
    match find PluginDefinition.is_original (PluginDefinition.variants d) with
    | Some v => Ok v
    | None => PluginDefinition.first_variant d
    end.
Proof. split; reflexivity. Qed.

Lemma find_variant_named (d : PluginDefinition.t) (s : string) :
  s <> "default" -> s <> "original" ->
  PluginDefinition.find_variant d (PluginDefinition.Named s) =
  PluginDefinition.get_variant d s.
Proof.
  intros Hdefault Horiginal.
  unfold PluginDefinition.find_variant, Variant.DEFAULT_NAME,
    Variant.ORIGINAL_NAME.
  apply String.eqb_neq in Hdefault, Horiginal.
  now rewrite Hdefault, Horiginal.
Qed.

(** X9: [find_variant] raises [IndexError] exactly when the definition has
    no variant and the selector is [None], "default" or "original"; any
    other name raises the variant-not-found error then, whose message ends
    with an empty list of variants.  With these three selectors a variant
    that [find_variant] returns is one of the definition's, and for [None]
    and "default" it is the one at index 0. *)
Theorem find_variant_index_error (d : PluginDefinition.t)
    (variant_or_name : PluginDefinition.selector) :
  let reserved :=
    variant_or_name = PluginDefinition.Absent \/
    variant_or_name = PluginDefinition.Named "default" \/
    variant_or_name = PluginDefinition.Named "original" in
  (PluginDefinition.find_variant d variant_or_name =
     Err (PluginDefinition.Raised IndexError) <->
   PluginDefinition.variants d = [] /\ reserved) /\
  (forall v : Variant.t,
      reserved ->
      PluginDefinition.find_variant d variant_or_name = Ok v ->
      In v (PluginDefinition.variants d) /\
      (variant_or_name <> PluginDefinition.Named "original" ->
       nth_error (PluginDefinition.variants d) 0 = Some v)) /\
  (forall s : string,
      PluginDefinition.variants d = [] ->
      variant_or_name = PluginDefinition.Named s ->
      s <> "default" -> s <> "original" ->
      PluginDefinition.find_variant d variant_or_name =
        Err (PluginDefinition.VariantNotFoundError d s
               (Str.capitalize
                  (PluginType.descriptor (PluginDefinition.type d))
                +++ " '" +++ PluginDefinition.name d +++ "' variant '" +++ s
                +++ "' is not known to Meltano. Variants: "))).
Proof.
  intros reserved.
  destruct (find_variant_reserved d) as [Hdefault Horiginal].
  split; [|split].
  - split.
    + intros H. destruct variant_or_name as [v| |s]; [discriminate| |].
      * apply first_variant_index in H. unfold reserved. tauto.
      * destruct (String.eqb s "default") eqn:E1.
        { apply String.eqb_eq in E1. subst s. rewrite Hdefault in H.
          apply first_variant_index in H. unfold reserved. tauto. }
        destruct (String.eqb s "original") eqn:E2.
        { apply String.eqb_eq in E2. subst s. rewrite Horiginal in H.
          destruct (find _ _); [discriminate|].
          apply first_variant_index in H. unfold reserved. tauto. }
        apply String.eqb_neq in E1, E2.
        rewrite find_variant_named in H by assumption.
        now apply get_variant_never_index in H.
    + intros [Hd [ -> | [ -> | -> ] ]]; rewrite ?Hdefault, ?Horiginal;
        try (now apply first_variant_index).
      rewrite Hd. simpl. now apply first_variant_index.
  - intros v [ -> | [ -> | -> ] ] H; rewrite ?Hdefault, ?Horiginal in H.
    + apply first_variant_member in H.
      split; [now apply nth_error_In in H | now intros _].
    + apply first_variant_member in H.
      split; [now apply nth_error_In in H | now intros _].
    + split; [|congruence].
      destruct (find _ _) as [v0|] eqn:E.
      * injection H as <-. now apply find_some in E.
      * apply first_variant_member in H. now apply nth_error_In in H.
  - intros s Hd -> Hs1 Hs2. rewrite find_variant_named by assumption.
    rewrite get_variant_missing; [|rewrite Hd; intros v Hv; destruct Hv].
    assert (Hnames : PluginDefinition.list_variant_names d = "")
      by (unfold PluginDefinition.list_variant_names; now rewrite Hd).
    unfold PluginDefinition.message. rewrite Hnames, !append_assoc.
    reflexivity.
Qed.

(** X10: a definition that the constructor returned always resolves the
    selectors [None], "default" and "original": the first two give the
    variant at index 0, the third one of the variants, and [find_variant]
    raises [IndexError] for no selector at all. *)
Theorem constructed_definition_resolves (plugin_type : PluginType.t)
    (name namespace : string) (variant : option string)
    (variants : list PluginDefinition.variant_src) (extras : kwargs)
    (d : PluginDefinition.t) :
  PluginDefinition.__init__ plugin_type name namespace variant variants
    extras = Ok d ->
  (exists first : Variant.t,
      nth_error (PluginDefinition.variants d) 0 = Some first /\
      PluginDefinition.find_variant d PluginDefinition.Absent = Ok first /\
      PluginDefinition.find_variant d (PluginDefinition.Named "default") =
        Ok first) /\
  (exists v : Variant.t,
      PluginDefinition.find_variant d (PluginDefinition.Named "original") =
        Ok v /\
      In v (PluginDefinition.variants d)) /\
  (forall variant_or_name : PluginDefinition.selector,
      PluginDefinition.find_variant d variant_or_name <>
      Err (PluginDefinition.Raised IndexError)).
Proof.
  intros Hd. apply init_variants_nonempty in Hd.
  destruct (PluginDefinition.variants d) as [|first others] eqn:Hvs;
    [congruence|].
  assert (Hfirst : PluginDefinition.first_variant d = Ok first)
    by (unfold PluginDefinition.first_variant; now rewrite Hvs).
  split; [|split].
  - exists first. now repeat split.
  - destruct (find_variant_reserved d) as [_ ->]. rewrite Hvs.
    destruct (find _ _) as [v|] eqn:E.
    + exists v. split; [reflexivity|]. now apply find_some in E.
    + exists first. split; [exact Hfirst | now left].
  - intros [v| |s]; unfold PluginDefinition.find_variant;
      [discriminate | now rewrite Hfirst|].
    destruct (String.eqb s _); [now rewrite Hfirst|].
    destruct (String.eqb s _); [|apply get_variant_never_index].
    destruct (find _ _); [discriminate | now rewrite Hfirst].
Qed.

Lemma constructed_definition_resolves_witness :
  exists first : Variant.t,
    PluginDefinition.find_variant Sample.flat_definition
      PluginDefinition.Absent = Ok first /\
    Variant.name first = Some "v1".
Proof.
  destruct (constructed_definition_resolves PluginType.EXTRACTORS
              "tap-gitlab" "tap_gitlab" (Some "v1") []
              [("label", AVal (VStr "GitLab")); ("pip_url", AVal (VStr "x"));
               ("capabilities", AVal (VList [VStr "discover"; VStr "catalog"]));
               ("foo", AVal (VStr "bar"))]
              Sample.flat_definition eq_refl)
    as ((first & Hnth & Habsent & _) & _).
  exists first. split; [exact Habsent|].
  injection Hnth as <-. reflexivity.
Defined.

(** ** List parameters of a variant *)

Lemma py_iter_err (x : val) (e : exn) : py_iter x = Err e -> e = TypeError.
Proof. destruct x; simpl; congruence. Qed.

Lemma iterable_err (a : option arg) (e : exn) :
  iterable a = Err e -> e = TypeError.
Proof.
  destruct a as [[x|l]|]; simpl; try discriminate.
  destruct (py_iter x) eqn:E; simpl; [discriminate|].
  intros [= <-]. now apply py_iter_err in E.
Qed.


(** ** A [variants] keyword that is false *)

Lemma get_removed {A} (k : string) (d : list (string * A)) :
  Dict.wf d -> Dict.get k (Dict.remove k d) = None.
Proof.
  intros H. rewrite remove_wf by exact H. rewrite get_filter_keys.
  now rewrite String.eqb_refl.
Qed.

(** X12: the constructor tests the truth of [variants], so that a
    [variants] keyword holding [None], an empty list, an empty mapping, an
    empty string, zero or [False] is the same as no [variants] keyword: the
    entry is read as one in flat form. *)
Theorem false_variants_mean_flat_form (plugin_type : PluginType.t)
    (fields : list (string * PluginDefinition.field)) (x : val) :
  Dict.wf fields ->
  Dict.get "variants" fields = Some (PluginDefinition.FVal x) ->
  PluginDefinition.truthy x = false ->
  PluginDefinition.new plugin_type fields =
  PluginDefinition.new plugin_type (Dict.remove "variants" fields).
Proof.
  intros Hwf Hx Hfalse. unfold PluginDefinition.new, Dict.mem.
  rewrite !(get_remove _ "variants") by discriminate.
  rewrite get_removed by exact Hwf. rewrite Hx.
  assert (Hextras :
            Dict.filter_keys
              (fun k => negb (among PluginDefinition.PARAMS k))
              (Dict.remove "variants" fields) =
            Dict.filter_keys
              (fun k => negb (among PluginDefinition.PARAMS k)) fields).
  { rewrite remove_wf by exact Hwf. rewrite filter_keys_twice.
    apply filter_keys_ext. intros k.
    destruct (String.eqb k "variants") eqn:E; [|reflexivity].
    apply String.eqb_eq in E. now subst k. }
  rewrite Hextras. unfold PluginDefinition.as_variants, PluginDefinition.FVal.
  now rewrite Hfalse.
Qed.

Lemma false_variants_mean_flat_form_witness :
  PluginDefinition.new PluginType.EXTRACTORS
    (("variants", PluginDefinition.FVal VNone) :: Sample.flat_entry) =
  Ok Sample.flat_definition.
Proof.
  assert (Hwf : Dict.wf (("variants", PluginDefinition.FVal VNone)
                           :: Sample.flat_entry)).
  { repeat constructor; simpl; intuition discriminate. }
  rewrite (false_variants_mean_flat_form PluginType.EXTRACTORS _ VNone Hwf
             eq_refl eq_refl).
  reflexivity.
Defined.

(** ** The extras of a plugin as defaults of its settings *)

Lemma mem_set {A} (k k' : string) (v : A) (d : list (string * A)) :
  Dict.mem k' (Dict.set k v d) = String.eqb k k' || Dict.mem k' d.
Proof.
  unfold Dict.mem. rewrite get_set. now destruct (String.eqb k k').
Qed.

(** Updating a dictionary keeps its keys in place and puts the new keys
    after them, in the order in which they come. *)
Lemma keys_update {A} (d items : list (string * A)) :
  Dict.wf items ->
  Dict.keys (Dict.update d items) =
  Dict.keys d ++ filter (fun k => negb (Dict.mem k d)) (Dict.keys items).
Proof.
  unfold Dict.update, Dict.wf. revert d.
  induction items as [|[k v] items IH]; simpl; intros d H.
  - now rewrite app_nil_r.
  - inversion H as [|? ? Hnotin Hnodup]; subst.
    rewrite IH by exact Hnodup. rewrite keys_set.
    assert (Hsame : filter (fun k' => negb (Dict.mem k' (Dict.set k v d)))
                      (Dict.keys items) =
                    filter (fun k' => negb (Dict.mem k' d))
                      (Dict.keys items)).
    { apply filter_ext_in. intros k' Hk'. rewrite mem_set.
      destruct (String.eqb k k') eqn:E; [|reflexivity].
      apply String.eqb_eq in E. now subst k'. }
    rewrite Hsame. destruct (Dict.mem k d); simpl; [reflexivity|].
    now rewrite <- app_assoc.
Qed.

Lemma get_merged (p : BasePlugin.t) (k : string) :
  Dict.wf (PluginDefinition.extras (BasePlugin._plugin_def p)) ->
  Dict.wf (Variant.extras (BasePlugin._variant p)) ->
  Dict.get k (BasePlugin.extras p) =
  match Dict.get k (Variant.extras (BasePlugin._variant p)) with
  | Some v => Some v
  | None => Dict.get k (PluginDefinition.extras (BasePlugin._plugin_def p))
  end.
Proof.
  intros Hd Hv. unfold BasePlugin.extras, Dict.merge.
  now rewrite get_update, of_items_wf.
Qed.

Lemma defaults_prefixed (p : BasePlugin.t) :
  BasePlugin.defaults p =
  List.map (fun kv => ("_" +++ fst kv, snd kv)) (BasePlugin.extras p).
Proof.
  unfold BasePlugin.defaults. apply of_items_wf, wf_prefixed, wf_merge.
Qed.

(** X13: the merged extras of a plugin keep the keys of the definition's
    extras in their order, an overridden key in the place it has there, and
    list the keys that only the variant binds after them, in the variant's
    order; the defaults of the extra settings are these keys, each with an
    underscore before it, in the same order. *)
Theorem extras_keep_definition_order (p : BasePlugin.t) :
  let definition_extras := PluginDefinition.extras (BasePlugin._plugin_def p) in
  let variant_extras := Variant.extras (BasePlugin._variant p) in
  Dict.wf definition_extras -> Dict.wf variant_extras ->
  Dict.keys (BasePlugin.extras p) =
    Dict.keys definition_extras
    ++ filter (fun k => negb (Dict.mem k definition_extras))
         (Dict.keys variant_extras) /\
  Dict.keys (BasePlugin.defaults p) =
    List.map (fun k => "_" +++ k) (Dict.keys (BasePlugin.extras p)).
Proof.
  intros definition_extras variant_extras Hd Hv. split.
  - unfold BasePlugin.extras, Dict.merge.
    fold definition_extras variant_extras.
    rewrite keys_update by exact Hv. now rewrite of_items_wf.
  - rewrite defaults_prefixed. unfold Dict.keys. now rewrite !map_map.
Qed.

Lemma extras_keep_definition_order_witness :
  Dict.keys (BasePlugin.extras Sample.plugin) =
    ["select"; "metadata"; "schema"] /\
  Dict.keys (BasePlugin.defaults Sample.plugin) =
    ["_select"; "_metadata"; "_schema"].
Proof.
  assert (Hd : Dict.wf (PluginDefinition.extras
                          (BasePlugin._plugin_def Sample.plugin))).
  { repeat constructor; simpl; intuition discriminate. }
  assert (Hv : Dict.wf (Variant.extras (BasePlugin._variant Sample.plugin))).
  { repeat constructor; simpl; intuition discriminate. }
  destruct (extras_keep_definition_order Sample.plugin Hd Hv) as [H1 H2].
  split; [exact H1 | exact H2].
Defined.

(** X14: the default that a declared extra setting [_k] is bound to is
    looked up in the variant's extras first: a value of the variant wins
    over the definition's, and a key that the variant binds to [None] hides
    the definition's value, so that the setting keeps its declared value.
    Only when the variant does not bind [k] is the definition's value
    used. *)
Theorem variant_extras_are_the_first_defaults
    (EXTRA_SETTINGS : list SettingDefinition.t)
    (from_missing : list SettingDefinition.t -> dict -> dict ->
                    list SettingDefinition.t)
    (p : BasePlugin.t) (setting : SettingDefinition.t) (k : string) :
  Dict.wf (PluginDefinition.extras (BasePlugin._plugin_def p)) ->
  Dict.wf (Variant.extras (BasePlugin._variant p)) ->
  In setting EXTRA_SETTINGS ->
  SettingDefinition.name setting = "_" +++ k ->
  In (match Dict.get k (Variant.extras (BasePlugin._variant p)) with
      | Some VNone => setting
      | Some v => SettingDefinition.with_value v setting
      | None =>
          match Dict.get k
                  (PluginDefinition.extras (BasePlugin._plugin_def p)) with
          | Some VNone | None => setting
          | Some v => SettingDefinition.with_value v setting
          end
      end)
     (BasePlugin.extra_settings EXTRA_SETTINGS from_missing p).
Proof.
  intros Hd Hv Hin Hname. unfold BasePlugin.extra_settings.
  apply in_or_app. left.
  assert (Hbound :
            BasePlugin.bound (BasePlugin.defaults p) setting =
            match Dict.get k (Variant.extras (BasePlugin._variant p)) with
            | Some VNone => setting
            | Some v => SettingDefinition.with_value v setting
            | None =>
                match Dict.get k
                        (PluginDefinition.extras (BasePlugin._plugin_def p))
                with
                | Some VNone | None => setting
                | Some v => SettingDefinition.with_value v setting
                end
            end).
  { unfold BasePlugin.bound, Dict.get_default.
    rewrite Hname, defaults_prefixed, get_prefixed, get_merged by assumption.
    destruct (Dict.get k (Variant.extras _)) as [[]|];
      try reflexivity.
    destruct (Dict.get k (PluginDefinition.extras _)) as [[]|];
      reflexivity. }
  rewrite <- Hbound. now apply in_map.
Qed.

Lemma variant_extras_are_the_first_defaults_witness :
  In {| SettingDefinition.name := "_schema";
        SettingDefinition.value := VStr "public";
        SettingDefinition.attrs := [] |}
     (BasePlugin.extra_settings Sample.extractor_settings
        SettingDefinition.from_missing Sample.plugin).
Proof.
  assert (Hd : Dict.wf (PluginDefinition.extras
                          (BasePlugin._plugin_def Sample.plugin))).
  { repeat constructor; simpl; intuition discriminate. }
  assert (Hv : Dict.wf (Variant.extras (BasePlugin._variant Sample.plugin))).
  { repeat constructor; simpl; intuition discriminate. }
  apply (variant_extras_are_the_first_defaults Sample.extractor_settings
           SettingDefinition.from_missing Sample.plugin
           {| SettingDefinition.name := "_schema";
              SettingDefinition.value := VStr "public";
              SettingDefinition.attrs := [] |}
           "schema" Hd Hv).
  - simpl. tauto.
  - reflexivity.
Defined.

(** X15: the executable of a plugin is the variant's when that is a
    non-empty string, and the name of the definition otherwise, also when
    the variant's executable is the empty string; so a plugin with a
    non-empty name never has an empty executable. *)
Theorem executable_falls_back_to_name (p : BasePlugin.t) :
  (forall e : string,
      Variant.executable (BasePlugin._variant p) = Some e -> e <> "" ->
      BasePlugin.executable p = e) /\
  (Variant.executable (BasePlugin._variant p) = None \/
   Variant.executable (BasePlugin._variant p) = Some "" ->
   BasePlugin.executable p =
     PluginDefinition.name (BasePlugin._plugin_def p)) /\
  (BasePlugin.executable p = "" ->
   PluginDefinition.name (BasePlugin._plugin_def p) = "").
Proof.
  unfold BasePlugin.executable.
  destruct (Variant.executable (BasePlugin._variant p)) as [e|].
  - destruct (String.eqb e "") eqn:E.
    + apply String.eqb_eq in E. subst e. repeat split; try tauto.
      intros e [= <-] H. congruence.
    + apply String.eqb_neq in E. repeat split.
      * now intros e' [= <-] _.
      * intros [H|[= H]]; [discriminate | congruence].
      * intros H. congruence.
  - repeat split; [discriminate | tauto].
Qed.

(** ** Runs of [SelectService.update] *)

Section UpdateRuns.

Import SelectService.

Lemma list_remove_none (p : string) (l : list val) :
  list_remove p l = None <-> ~ In (VStr p) l.
Proof.
  split; [|apply list_remove_absent].
  induction l as [|x l IH]; simpl; [tauto|].
  destruct (val_eq_str x p) eqn:E; [discriminate|].
  destruct (list_remove p l); [discriminate|].
  intros _ [->|H]; [|now apply IH].
  simpl in E. now rewrite String.eqb_refl in E.
Qed.

Lemma list_remove_some (p : string) (l l' : list val) :
  list_remove p l = Some l' ->
  exists l1 l2,
    l = l1 ++ VStr p :: l2 /\ ~ In (VStr p) l1 /\ l' = l1 ++ l2.
Proof.
  revert l'. induction l as [|x l IH]; simpl; intros l' H; [discriminate|].
  destruct (val_eq_str x p) eqn:E.
  - injection H as <-. destruct x; try discriminate.
    apply String.eqb_eq in E. subst s. now exists [], l.
  - destruct (list_remove p l) as [l0|]; [|discriminate].
    injection H as <-. destruct (IH _ eq_refl) as (l1 & l2 & -> & Hl1 & ->).
    exists (x :: l1), l2. repeat split. intros [->|Hin]; [|tauto].
    simpl in E. now rewrite String.eqb_refl in E.
Qed.

(** What the list operation of [update] returns. *)
Lemma mutate_ok (r : bool) (p : string) (v patterns : val) :
  mutate r p v = Ok patterns ->
  exists l,
    v = VList l /\
    if r then
      exists l1 l2,
        l = l1 ++ VStr p :: l2 /\ ~ In (VStr p) l1 /\
        patterns = VList (l1 ++ l2)
    else patterns = VList (l ++ [VStr p]).
Proof.
  destruct v; try discriminate. simpl. intros H. exists xs.
  split; [reflexivity|]. destruct r.
  - destruct (list_remove p xs) as [l'|] eqn:E; [|discriminate].
    injection H as <-. apply list_remove_some in E.
    destruct E as (l1 & l2 & -> & Hl1 & ->). now exists l1, l2.
  - now injection H as <-.
Qed.

Lemma mutate_err (r : bool) (p : string) (v : val) (err : exn) :
  mutate r p v = Err err ->
  (err = AttributeError /\ forall l, v <> VList l) \/
  (err = ValueError /\ r = true /\ exists l, v = VList l /\ ~ In (VStr p) l).
Proof.
  destruct v; simpl; try (intros [= <-]; left; split; [reflexivity|];
                          intros l; discriminate).
  destruct r; [|discriminate].
  destruct (list_remove p xs) eqn:E; [discriminate|].
  intros [= <-]. right. split; [reflexivity|]. split; [reflexivity|].
  exists xs. split; [reflexivity | now apply list_remove_none].
Qed.

(** A run of [update] either raises and leaves the state as it is, or
    stores the new list and persists the plugin. *)
Lemma update_cases (e a : string) (x r : bool) (st : state) :
  let current := match select st with Some v => v | None => VList [] end in
  (exists err,
      mutate r (_get_pattern_string e a x) current = Err err /\
      update e a x r st = (Err err, st)) \/
  (exists patterns,
      mutate r (_get_pattern_string e a x) current = Ok patterns /\
      update e a x r st =
        (Ok tt,
         committed (Dict.set "select" patterns (plugin_extras (active st) st))
           st)).
Proof.
  intros current.
  destruct (mutate r (_get_pattern_string e a x) current) as [patterns|err]
    eqn:E.
  - right. exists patterns. split; [reflexivity|]. now apply update_returns.
  - left. exists err. split; [reflexivity|]. now apply update_raises.
Qed.

Lemma extras_committed (extras : dict) (st : state) :
  plugin_extras (active st) (committed extras st) = extras.
Proof.
  unfold committed, record_call, with_plugin_extras, plugin_extras, active.
  destruct (environment st); reflexivity.
Qed.

Lemma frame_committed (extras : dict) (st : state) :
  environment (committed extras st) = environment st /\
  (environment st = true ->
   extractor_extras (committed extras st) = extractor_extras st) /\
  (environment st = false ->
   environment_extras (committed extras st) = environment_extras st).
Proof.
  unfold committed, record_call, with_plugin_extras, active.
  destruct (environment st); simpl; repeat split; congruence.
Qed.

End UpdateRuns.

(** X16: [update] works on one plugin object only.  Whether it returns or
    raises, the environment stays as it is, the extras of the other object
    are not touched (those of the extractor when an environment is active,
    those of the environment's plugin configuration when none is), and in
    the extras of the object it works on every key other than [select]
    keeps its value and its place; a [select] key that was not bound is
    added after the others. *)
Theorem update_touches_select_only (entities_filter attributes_filter : string)
    (exclude remove : bool) (st : SelectService.state) :
  let run :=
    SelectService.update entities_filter attributes_filter exclude remove st in
  let before := SelectService.plugin_extras (SelectService.active st) st in
  let after :=
    SelectService.plugin_extras (SelectService.active st) (snd run) in
  SelectService.environment (snd run) = SelectService.environment st /\
  (SelectService.environment st = true ->
   SelectService.extractor_extras (snd run) =
     SelectService.extractor_extras st) /\
  (SelectService.environment st = false ->
   SelectService.environment_extras (snd run) =
     SelectService.environment_extras st) /\
  (forall k : string, k <> "select" -> Dict.get k after = Dict.get k before) /\
  (Dict.keys after = Dict.keys before \/
   (Dict.get "select" before = None /\
    Dict.keys after = Dict.keys before ++ ["select"])).
Proof.
  intros run before after.
  destruct (update_cases entities_filter attributes_filter exclude remove st)
    as [(err & _ & Hrun)|(patterns & _ & Hrun)];
    unfold after, run; rewrite Hrun; simpl.
  - repeat split; tauto.
  - rewrite extras_committed. fold before.
    destruct (frame_committed (Dict.set "select" patterns before) st)
      as (Henv & Hextractor & Hconfig).
    do 3 (split; [assumption|]). split.
    + intros k Hk. rewrite get_set.
      destruct (String.eqb "select" k) eqn:E; [|reflexivity].
      apply String.eqb_eq in E. congruence.
    + rewrite keys_set. unfold Dict.mem.
      destruct (Dict.get "select" before); [now left | now right].
Qed.

(** X17: [update] raises in two cases only, and then it has changed
    nothing: [ValueError] exactly when it is to remove a pattern that the
    select list does not hold, [AttributeError] exactly when [select] is
    bound to something that is not a list (also to [None]), which has no
    [append] and no [remove]. *)
Theorem update_raises_only_for (entities_filter attributes_filter : string)
    (exclude remove : bool) (st : SelectService.state) :
  let run :=
    SelectService.update entities_filter attributes_filter exclude remove st in
  let p :=
    SelectService._get_pattern_string entities_filter attributes_filter
      exclude in
  (forall err : exn,
      fst run = Err err ->
      snd run = st /\ (err = ValueError \/ err = AttributeError)) /\
  (fst run = Err ValueError <->
   remove = true /\
   exists l, SelectService.patterns_are st l /\ ~ In (VStr p) l) /\
  (fst run = Err AttributeError <->
   exists v, SelectService.select st = Some v /\ forall l, v <> VList l).
Proof.
  intros run p.
  pose (current := match SelectService.select st with
                   | Some v => v
                   | None => VList []
                   end).
  assert (Hlist : forall l,
             current = VList l <-> SelectService.patterns_are st l).
  { intros l. unfold current, SelectService.patterns_are.
    destruct (SelectService.select st) as [v|]; split.
    - intros ->. now left.
    - intros [[= ->]|[[=] _]]. reflexivity.
    - intros [= <-]. now right.
    - intros [[=]|[_ ->]]. reflexivity. }
  assert (Hnolist : (forall l, current <> VList l) <->
                    exists v, SelectService.select st = Some v /\
                              forall l, v <> VList l).
  { unfold current. destruct (SelectService.select st) as [v|]; split.
    - intros H. now exists v.
    - intros (v' & [= <-] & H). exact H.
    - intros H. now destruct (H []).
    - intros (v' & [=] & _). }
  destruct (update_cases entities_filter attributes_filter exclude remove st)
    as [(err & Hm & Hrun)|(patterns & Hm & Hrun)];
    fold current p in Hm; unfold run; rewrite Hrun; simpl.
  - pose proof (mutate_err _ _ _ _ Hm)
      as [[-> Hno]|(-> & -> & l & Hl & Habsent)].
    + split; [|split].
      * intros err [= <-]. split; [reflexivity | now right].
      * split; [discriminate|]. intros (_ & l & Hl & _).
        apply (proj2 (Hlist _)) in Hl. now apply Hno in Hl.
      * split; [intros _; now apply (proj1 Hnolist) | reflexivity].
    + split; [|split].
      * intros err [= <-]. split; [reflexivity | now left].
      * split; [|reflexivity]. intros _. split; [reflexivity|].
        exists l. split; [now apply (proj1 (Hlist _)) | exact Habsent].
      * split; [discriminate|]. intros H.
        now destruct (proj2 Hnolist H l).
  - split; [|split].
    + discriminate.
    + split; [discriminate|]. intros (-> & l & Hl & Habsent).
      apply (proj2 (Hlist _)) in Hl. rewrite Hl in Hm. simpl in Hm.
      apply list_remove_none in Habsent. fold p in Hm.
      now rewrite Habsent in Hm.
    + split; [discriminate|]. intros H.
      apply mutate_ok in Hm. destruct Hm as (l & Hl & _).
      now destruct (proj2 Hnolist H l).
Qed.

(** X18: a run of [update] that returns leaves [select] bound to a list,
    one element longer than before after an append and one element shorter
    after a removal; the key is never deleted, so removing the last pattern
    leaves an empty list.  The run hands the plugin to the plugin service
    exactly once, after the list is stored: to [update_environment_plugin]
    when an environment is active and to [update_plugin] otherwise, with
    the extras that are stored. *)
Theorem update_stores_and_persists_once
    (entities_filter attributes_filter : string) (exclude remove : bool)
    (st : SelectService.state) :
  let run :=
    SelectService.update entities_filter attributes_filter exclude remove st in
  let after :=
    SelectService.plugin_extras (SelectService.active st) (snd run) in
  fst run = Ok tt ->
  (exists l l',
      SelectService.patterns_are st l /\
      SelectService.select (snd run) = Some (VList l') /\
      (if remove then S (List.length l') = List.length l
       else List.length l' = S (List.length l))) /\
  SelectService.calls (snd run) =
    SelectService.calls st
    ++ [if SelectService.environment st
        then SelectService.update_environment_plugin after
        else SelectService.update_plugin after].
Proof.
  intros run after.
  destruct (update_cases entities_filter attributes_filter exclude remove st)
    as [(err & _ & Hrun)|(patterns & Hm & Hrun)];
    unfold after, run; rewrite Hrun; simpl; [discriminate|].
  intros _. rewrite extras_committed, select_committed, get_set. simpl.
  split.
  - apply mutate_ok in Hm. destruct Hm as (l & Hl & Hpatterns).
    assert (Hst : SelectService.patterns_are st l).
    { unfold SelectService.patterns_are.
      destruct (SelectService.select st) as [v|].
      - left. now subst v.
      - right. split; [reflexivity|]. now injection Hl as <-. }
    exists l. destruct remove.
    + destruct Hpatterns as (l1 & l2 & -> & _ & ->).
      exists (l1 ++ l2). split; [exact Hst|]. split; [reflexivity|].
      rewrite !length_app. simpl. lia.
    + subst patterns. exists (l ++ [VStr
        (SelectService._get_pattern_string entities_filter attributes_filter
           exclude)]).
      split; [exact Hst|]. split; [reflexivity|].
      rewrite length_app. simpl. lia.
  - unfold SelectService.committed, SelectService.record_call. simpl.
    f_equal. now destruct (SelectService.active st).
Qed.

Lemma update_stores_and_persists_once_witness :
  SelectService.calls
    (snd (SelectService.update "users" "*" false true Sample.two_patterns)) =
  [SelectService.update_plugin [("select", VList [VStr "orders.*"])]].
Proof.
  exact (proj2 (update_stores_and_persists_once "users" "*" false true
                  Sample.two_patterns eq_refl)).
Defined.

(** X19: [update] does not look for the pattern before it appends it:
    adding the same pattern twice stores it twice, and one removal then
    succeeds and takes one copy away; when the list did not hold the
    pattern before, the other copy is left. *)
Theorem update_appends_duplicates
    (entities_filter attributes_filter : string) (exclude : bool)
    (st : SelectService.state) (l : list val) :
  SelectService.patterns_are st l ->
  let p := VStr (SelectService._get_pattern_string entities_filter
                   attributes_filter exclude) in
  let update :=
    SelectService.update entities_filter attributes_filter exclude in
  exists st1 st2 st3 : SelectService.state,
    update false st = (Ok tt, st1) /\
    update false st1 = (Ok tt, st2) /\
    SelectService.select st2 = Some (VList (l ++ [p; p])) /\
    update true st2 = (Ok tt, st3) /\
    (~ In p l -> SelectService.select st3 = Some (VList (l ++ [p]))).
Proof.
  intros Hl p update.
  set (s := SelectService._get_pattern_string entities_filter
              attributes_filter exclude) in *.
  assert (Hcur : match SelectService.select st with
                 | Some v => v
                 | None => VList []
                 end = VList l).
  { destruct Hl as [H|[H ->]]; now rewrite H. }
  assert (Hstep : forall (r : bool) (s0 : SelectService.state)
                         (l0 l1 : list val),
             SelectService.select s0 = Some (VList l0) ->
             SelectService.mutate r s (VList l0) = Ok (VList l1) ->
             exists s', update r s0 = (Ok tt, s') /\
                        SelectService.select s' = Some (VList l1)).
  { intros r s0 l0 l1 Hs Hm. eexists. split.
    - apply update_returns. rewrite Hs. exact Hm.
    - now rewrite select_committed, get_set. }
  assert (H1 : exists st1, update false st = (Ok tt, st1) /\
                           SelectService.select st1 = Some (VList (l ++ [p]))).
  { eexists. split.
    - apply update_returns. rewrite Hcur. reflexivity.
    - now rewrite select_committed, get_set. }
  destruct H1 as (st1 & Hrun1 & Hsel1).
  destruct (Hstep false st1 (l ++ [p]) ((l ++ [p]) ++ [p]) Hsel1 eq_refl)
    as (st2 & Hrun2 & Hsel2).
  rewrite <- app_assoc in Hsel2. simpl in Hsel2.
  destruct (SelectService.list_remove s (l ++ [p; p])) as [l'|] eqn:E.
  - destruct (Hstep true st2 (l ++ [p; p]) l' Hsel2) as (st3 & Hrun3 & Hsel3).
    { simpl. now rewrite E. }
    exists st1, st2, st3. do 4 (split; [assumption|]).
    intros Habsent. unfold p in E.
    rewrite list_remove_first in E by exact Habsent.
    injection E as <-. exact Hsel3.
  - apply (proj1 (list_remove_none _ _)) in E. exfalso. apply E.
    apply in_or_app. right. now left.
Qed.

Lemma update_appends_duplicates_witness :
  SelectService.select
    (snd (SelectService.update "orders" "*" false false
            (snd (SelectService.update "orders" "*" false false
                    Sample.two_patterns)))) =
  Some (VList [VStr "users.*"; VStr "orders.*"; VStr "orders.*";
               VStr "orders.*"]).
Proof.
  destruct (update_appends_duplicates "orders" "*" false Sample.two_patterns
              [VStr "users.*"; VStr "orders.*"] (or_introl eq_refl))
    as (st1 & st2 & _ & Hrun1 & Hrun2 & Hsel2 & _).
  rewrite Hrun1. simpl. rewrite Hrun2. exact Hsel2.
Defined.

(** ** The pattern string *)

Lemma append_inj (a b c : string) : a +++ b = a +++ c -> b = c.
Proof.
  induction a as [|ch a IH]; simpl; [tauto|]. intros [= H]. now apply IH.
Qed.

(** X20: the pattern string does not tell its parts apart.  A dot may
    belong to the entities filter or to the attributes filter, and an
    entities filter that starts with "!" and is not excluded gives the
    pattern of the excluded filter without it, so that [update] does the
    same for both.  For given entities the
    pattern does determine the attributes filter, and the excluding and the
    including pattern of the same filters always differ. *)
Theorem pattern_string_is_ambiguous (e m a : string) (exclude : bool) :
  SelectService._get_pattern_string (e +++ "." +++ m) a exclude =
    SelectService._get_pattern_string e (m +++ "." +++ a) exclude /\
  SelectService._get_pattern_string ("!" +++ e) a false =
    SelectService._get_pattern_string e a true /\
  SelectService._get_pattern_string e a true <>
    SelectService._get_pattern_string e a false /\
  (forall a' : string,
      SelectService._get_pattern_string e a exclude =
        SelectService._get_pattern_string e a' exclude ->
      a = a') /\
  (forall (remove : bool) (st : SelectService.state),
      SelectService.update ("!" +++ e) a false remove st =
      SelectService.update e a true remove st).
Proof.
  split; [|split; [|split; [|split]]].
  - unfold SelectService._get_pattern_string. now rewrite !append_assoc.
  - reflexivity.
  - unfold SelectService._get_pattern_string.
    intros H. apply (f_equal String.length) in H.
    rewrite !length_append in H. simpl in H. lia.
  - unfold SelectService._get_pattern_string.
    intros a' H. apply append_inj, append_inj in H.
    now apply (append_inj ".") in H.
  - reflexivity.
Qed.

(** ** Updates one after the other *)

Section UpdateSequences.

Import SelectService.

Lemma val_eq_str_true (x : val) (p : string) :
  val_eq_str x p = true <-> x = VStr p.
Proof.
  destruct x; simpl; try (split; [discriminate | congruence]).
  rewrite String.eqb_eq. split; congruence.
Qed.

(** Removing [p] does not see a different pattern appended at the end. *)
Lemma list_remove_app (p q : string) (l : list val) :
  p <> q ->
  list_remove p (l ++ [VStr q]) =
  option_map (fun l' => l' ++ [VStr q]) (list_remove p l).
Proof.
  intros Hne. induction l as [|x l IH]; simpl.
  - apply String.eqb_neq in Hne. rewrite String.eqb_sym. now rewrite Hne.
  - destruct (val_eq_str x p); [reflexivity|]. rewrite IH.
    now destruct (list_remove p l).
Qed.

(** Removals of two different patterns can be swapped. *)
Lemma list_remove_swap (p q : string) (l lp lpq : list val) :
  p <> q ->
  list_remove p l = Some lp -> list_remove q lp = Some lpq ->
  exists lq, list_remove q l = Some lq /\ list_remove p lq = Some lpq.
Proof.
  intros Hne. revert lp lpq.
  induction l as [|x l IH]; simpl; intros lp lpq Hp Hq; [discriminate|].
  destruct (val_eq_str x p) eqn:Exp.
  - injection Hp as <-. apply val_eq_str_true in Exp. subst x. simpl.
    apply String.eqb_neq in Hne. rewrite Hne, Hq. simpl.
    exists (VStr p :: lpq). split; [reflexivity|]. simpl.
    now rewrite String.eqb_refl.
  - destruct (list_remove p l) as [lp'|] eqn:Hp'; [|discriminate].
    injection Hp as <-. simpl in Hq.
    destruct (val_eq_str x q) eqn:Exq.
    + injection Hq as <-. exists l. split; [reflexivity | exact Hp'].
    + destruct (list_remove q lp') as [lpq'|] eqn:Hq'; [|discriminate].
      injection Hq as <-.
      destruct (IH _ _ eq_refl Hq') as (lq & Hlq & Hlpq).
      exists (x :: lq). rewrite Hlq. split; [reflexivity|]. simpl.
      now rewrite Exp, Hlpq.
Qed.

(** The list operations of two updates for different patterns can be
    swapped, unless both append. *)
Lemma mutate_swap (r1 r2 : bool) (p q : string) (l l1 l2 : list val) :
  p <> q -> r1 = true \/ r2 = true ->
  mutate r1 p (VList l) = Ok (VList l1) ->
  mutate r2 q (VList l1) = Ok (VList l2) ->
  exists l1',
    mutate r2 q (VList l) = Ok (VList l1') /\
    mutate r1 p (VList l1') = Ok (VList l2).
Proof.
  intros Hne Hr. simpl.
  destruct r1, r2; try (destruct Hr; discriminate).
  - destruct (list_remove p l) as [lp|] eqn:Hp; [|discriminate].
    intros [= <-].
    destruct (list_remove q lp) as [lpq|] eqn:Hq; [|discriminate].
    intros [= <-].
    destruct (list_remove_swap p q l lp lpq Hne Hp Hq) as (lq & Hlq & Hlpq).
    exists lq. now rewrite Hlq, Hlpq.
  - destruct (list_remove p l) as [lp|] eqn:Hp; [|discriminate].
    intros [= <-] [= <-]. exists (l ++ [VStr q]). split; [reflexivity|].
    rewrite list_remove_app by exact Hne. now rewrite Hp.
  - intros [= <-]. rewrite list_remove_app by congruence.
    destruct (list_remove q l) as [lq|] eqn:Hq; [|discriminate].
    simpl. intros [= <-]. now exists lq.
Qed.

(** A run on a list of patterns, and what a run that returns has done. *)
Lemma update_on_list (e a : string) (x r : bool) (st : state)
    (l l' : list val) :
  patterns_are st l ->
  mutate r (_get_pattern_string e a x) (VList l) = Ok (VList l') ->
  fst (update e a x r st) = Ok tt /\
  select (snd (update e a x r st)) = Some (VList l').
Proof.
  intros Hl Hm.
  assert (Hcur : match select st with Some v => v | None => VList [] end =
                 VList l).
  { destruct Hl as [H|[H ->]]; now rewrite H. }
  rewrite (update_returns e a x r st (VList l')) by now rewrite Hcur.
  simpl. now rewrite select_committed, get_set.
Qed.

Lemma update_ok (e a : string) (x r : bool) (st : state) :
  fst (update e a x r st) = Ok tt ->
  exists l l',
    patterns_are st l /\
    mutate r (_get_pattern_string e a x) (VList l) = Ok (VList l') /\
    select (snd (update e a x r st)) = Some (VList l').
Proof.
  destruct (update_cases e a x r st) as [(err & _ & Hrun)|(v & Hm & Hrun)];
    rewrite Hrun; simpl; [discriminate|]. intros _.
  pose proof (mutate_ok _ _ _ _ Hm) as (l & Hl & Hv).
  assert (Hst : patterns_are st l).
  { unfold patterns_are. destruct (select st) as [v0|].
    - left. now subst v0.
    - right. split; [reflexivity|]. now injection Hl as <-. }
  assert (Hv' : exists l', v = VList l').
  { destruct r.
    - destruct Hv as (l1 & l2 & _ & _ & ->). now eexists.
    - eexists. exact Hv. }
  destruct Hv' as [l' ->]. exists l, l'. split; [exact Hst|].
  rewrite Hl in Hm. split; [exact Hm|].
  now rewrite select_committed, get_set.
Qed.

End UpdateSequences.

(** X21: two updates for different patterns can be made in either order,
    unless both append: when one order returns, so does the other, and both
    leave the same list of patterns.  (Two appends leave the patterns in
    the order of the calls.) *)
Theorem updates_for_different_patterns_commute
    (e1 a1 e2 a2 : string) (x1 r1 x2 r2 : bool) (st : SelectService.state) :
  let update1 := SelectService.update e1 a1 x1 r1 in
  let update2 := SelectService.update e2 a2 x2 r2 in
  SelectService._get_pattern_string e1 a1 x1 <>
    SelectService._get_pattern_string e2 a2 x2 ->
  r1 = true \/ r2 = true ->
  fst (update1 st) = Ok tt ->
  fst (update2 (snd (update1 st))) = Ok tt ->
  fst (update2 st) = Ok tt /\
  fst (update1 (snd (update2 st))) = Ok tt /\
  SelectService.select (snd (update1 (snd (update2 st)))) =
    SelectService.select (snd (update2 (snd (update1 st)))).
Proof.
  intros update1 update2 Hne Hr H1 H2.
  apply update_ok in H1. destruct H1 as (l & l1 & Hl & Hm1 & Hsel1).
  apply update_ok in H2. destruct H2 as (l1' & l2 & Hl1 & Hm2 & Hsel2).
  assert (l1' = l1) as ->.
  { fold update1 in Hsel1. destruct Hl1 as [H|[H _]]; congruence. }
  destruct (mutate_swap _ _ _ _ _ _ _ Hne Hr Hm1 Hm2) as (lq & Hq & Hp).
  destruct (update_on_list e2 a2 x2 r2 st l lq Hl Hq) as [Hok2 Hsel].
  split; [exact Hok2|].
  destruct (update_on_list e1 a1 x1 r1 _ lq l2 (or_introl Hsel) Hp)
    as [Hok1 Hsel'].
  split; [exact Hok1|]. fold update2 in Hsel'. fold update2 update1 in Hsel2.
  unfold update1 at 1. congruence.
Qed.

Lemma updates_for_different_patterns_commute_witness :
  SelectService.select
    (snd (SelectService.update "users" "*" false true
            (snd (SelectService.update "orders" "id" true false
                    Sample.two_patterns)))) =
  Some (VList [VStr "orders.*"; VStr "!orders.id"]).
Proof.
  assert (Hne : SelectService._get_pattern_string "users" "*" false <>
                SelectService._get_pattern_string "orders" "id" true)
    by discriminate.
  exact (proj2 (proj2
    (updates_for_different_patterns_commute
       "users" "*" "orders" "id" false true true false Sample.two_patterns
       Hne (or_introl eq_refl) eq_refl eq_refl))).
Defined.

(** ** Flat fields and a list of one variant *)

(** X22: building a definition from flat fields is building it from the
    list of the one variant that [Variant(variant, **extras)] returns, its
    extras emptied, with the keywords that this variant took for extras;
    the [variant] keyword plays no part in the second call. *)
Theorem flat_fields_are_one_listed_variant (plugin_type : PluginType.t)
    (name namespace : string) (variant other : option string)
    (extras : kwargs) (v : Variant.t) :
  Variant.__init__positional variant extras = Ok v ->
  PluginDefinition.__init__ plugin_type name namespace variant [] extras =
  PluginDefinition.__init__ plugin_type name namespace other
    [PluginDefinition.Parsed (Variant.set_extras [] v)]
    (of_extras (Variant.extras v)).
Proof.
  intros Hv. unfold PluginDefinition.__init__.
  now rewrite Hv, as_extras_of_extras.
Qed.

Lemma flat_fields_are_one_listed_variant_witness :
  PluginDefinition.__init__ PluginType.EXTRACTORS "tap-gitlab" "tap_gitlab"
    None
    [PluginDefinition.Parsed
       {| Variant.name := Some "v1"; Variant.original := None;
          Variant.deprecated := None; Variant.docs := None;
          Variant.repo := None; Variant.pip_url := Some "x";
          Variant.executable := None;
          Variant.capabilities := [];
          Variant.settings_group_validation := [];
          Variant.settings := []; Variant.extras := [] |}]
    [("label", AVal (VStr "GitLab")); ("foo", AVal (VStr "bar"))] =
  PluginDefinition.__init__ PluginType.EXTRACTORS "tap-gitlab" "tap_gitlab"
    (Some "v1") [] Sample.labelled_fields.
Proof.
  symmetry.
  exact (flat_fields_are_one_listed_variant PluginType.EXTRACTORS
           "tap-gitlab" "tap_gitlab" (Some "v1") None Sample.labelled_fields
           _ eq_refl).
Defined.
